(** * The analysis core of the PR-agent server ([server.py])

    A shallow embedding of the three pieces of [server.py] that carry
    invariants, and the properties stated about them:

    - [Git]: [_get_git_changes], the change collector with its bounded diff;
    - [Actions]: [get_recent_actions_events] and [get_workflow_status], the
      two views over the webhook event feed;
    - [Templates]: [get_pr_templates] and [suggest_template].

    Python values are modelled as the code uses them: a [str] is a list of
    Unicode code points, an [int] is a [Z], [None] is [None], a dict whose
    iteration order matters is an association list in insertion order.
    What the code obtains from outside (the outcome of a [git] subprocess,
    the fetched event feed, the text of a template file, [str.lower]) is an
    explicit argument of the function that uses it. *)

From Stdlib Require Import Ascii String.
From Stdlib Require Import List Bool ZArith NArith Lia Permutation Sorted.
From Stdlib Require DecimalString.
Import ListNotations.

(* ================================================================== *)
(** * Python built-ins used by the server *)
(* ================================================================== *)

Module Py.

(** A Python [str] is a sequence of code points. *)
Definition char := N.
Definition str := list char.

(** An ASCII literal of the source, as a [str]. *)
Definition lit (s : string) : str := map N_of_ascii (list_ascii_of_string s).

Definition LF : char := 10%N.
Definition CR : char := 13%N.

(** [bool(s)] for a string: the empty string is falsy. *)
Definition truthy (s : str) : bool :=
  match s with [] => false | _ :: _ => true end.

(** [a == b] on strings. *)
Fixpoint eqb (a b : str) : bool :=
  match a, b with
  | [], [] => true
  | x :: a', y :: b' => N.eqb x y && eqb a' b'
  | _, _ => false
  end.

(** Strings are ordered lexicographically by code point; a proper prefix
    is smaller. *)
Fixpoint compare (a b : str) : comparison :=
  match a, b with
  | [], [] => Eq
  | [], _ :: _ => Lt
  | _ :: _, [] => Gt
  | x :: a', y :: b' =>
      match N.compare x y with
      | Eq => compare a' b'
      | c => c
      end
  end.

(** [a < b], [a > b] and [a <= b] on strings. *)
Definition ltb (a b : str) : bool :=
  match compare a b with Lt => true | _ => false end.
Definition gtb (a b : str) : bool := ltb b a.
Definition leb (a b : str) : bool := negb (gtb a b).

(** [sep.join(parts)]. *)
Fixpoint join (sep : str) (parts : list str) : str :=
  match parts with
  | [] => []
  | [p] => p
  | p :: rest => p ++ sep ++ join sep rest
  end.

(** The line boundaries of [str.splitlines]: LF, VT, FF, CR, FS, GS, RS,
    NEL, LINE SEPARATOR and PARAGRAPH SEPARATOR. *)
Definition is_linebreak (c : char) : bool :=
  (N.eqb c 10 || N.eqb c 11 || N.eqb c 12 || N.eqb c 13
   || N.eqb c 28 || N.eqb c 29 || N.eqb c 30 || N.eqb c 133
   || N.eqb c 8232 || N.eqb c 8233)%N.

(** [s.splitlines()]: the lines of [s] without their line breaks; CR LF is
    one break, and a final break opens no further line. *)
Fixpoint splitlines (s : str) : list str :=
  match s with
  | [] => []
  | c :: s' =>
      if is_linebreak c then
        [] :: (if N.eqb c CR then
                 match s' with
                 | c' :: s'' => if N.eqb c' LF then splitlines s''
                                else splitlines s'
                 | [] => splitlines s'
                 end
               else splitlines s')
      else
        match splitlines s' with
        | [] => [[c]]
        | l :: ls => (c :: l) :: ls
        end
  end.

(** A text with no line boundary in it. *)
Definition no_break (l : str) : Prop :=
  Forall (fun c => is_linebreak c = false) l.

(** [s.split(sep)] for a one-character separator: never an empty list. *)
Fixpoint split (sep : char) (s : str) : list str :=
  match s with
  | [] => [[]]
  | c :: s' =>
      if N.eqb c sep then [] :: split sep s'
      else
        match split sep s' with
        | [] => [[c]]
        | l :: ls => (c :: l) :: ls
        end
  end.

(** The characters [str.strip()] removes: those with [str.isspace()]. *)
Definition is_space (c : char) : bool :=
  ((9 <=? c) && (c <=? 13) || (28 <=? c) && (c <=? 32)
   || N.eqb c 133 || N.eqb c 160 || N.eqb c 5760
   || (8192 <=? c) && (c <=? 8202)
   || N.eqb c 8232 || N.eqb c 8233 || N.eqb c 8239 || N.eqb c 8287
   || N.eqb c 12288)%N.

Fixpoint lstrip (s : str) : str :=
  match s with
  | [] => []
  | c :: s' => if is_space c then lstrip s' else s
  end.

Definition rstrip (s : str) : str := rev (lstrip (rev s)).

(** [s.strip()]. *)
Definition strip (s : str) : str := rstrip (lstrip s).

(** [len(l)]. *)
Definition len {A} (l : list A) : Z := Z.of_nat (length l).

(** Where a slice bound lands in a sequence of length [n]: a negative bound
    counts from the end, and the result is clamped to [0..n]. *)
Definition clamp (n : nat) (i : Z) : nat :=
  if (i <? 0)%Z then Z.to_nat (Z.max 0 (Z.of_nat n + i))
  else Nat.min (Z.to_nat i) n.

(** [l[:stop]]. *)
Definition slice_to {A} (l : list A) (stop : Z) : list A :=
  firstn (clamp (length l) stop) l.

(** [l[start:]]. *)
Definition slice_from {A} (l : list A) (start : Z) : list A :=
  skipn (clamp (length l) start) l.

(** [str.lower] restricted to ASCII: the letters A-Z are moved to a-z and
    every other code point is kept. Python's [str.lower] agrees with it on
    strings of ASCII characters. *)
Definition ascii_lower_char (c : char) : char :=
  if ((65 <=? c) && (c <=? 90))%N then (c + 32)%N else c.
Definition ascii_lower (s : str) : str := map ascii_lower_char s.

Definition is_ascii (c : char) : bool := (c <? 128)%N.

(** What the proofs need of [str.lower]: on ASCII text it is
    [ascii_lower]. *)
Definition lower_on_ascii (lower : str -> str) : Prop :=
  forall s, forallb is_ascii s = true -> lower s = ascii_lower s.

End Py.


(* ================================================================== *)
(** * The change collector: [_get_git_changes] *)
(* ================================================================== *)

Module Git.
Import Py.

(** What one [subprocess.run(argv, cwd=..., capture_output=True,
    text=True)] comes to: the process ran and exited, or the call itself
    raised (no [git] executable, no such directory); [msg] is the text
    of that exception. *)
Inductive outcome :=
| Exited (returncode : Z) (out err : str)
| Raised (msg : str).

(** The working copy as the collector sees it: the outcome of a command
    line run in a directory. *)
Definition system := str -> list str -> outcome.

Record CompletedProcess := {
  returncode : Z;
  stdout : str;
  stderr : str
}.

Inductive exn :=
| CalledProcessError (e_stderr : str)
| Exception (e_str : str).

(** [subprocess.run(..., check=check)]: with [check], a non-zero exit
    status raises [CalledProcessError]. *)
Definition subprocess_run (o : outcome) (check : bool) : exn + CompletedProcess :=
  match o with
  | Raised msg => inl (Exception msg)
  | Exited rc out err =>
      if check && negb (rc =? 0)%Z then inl (CalledProcessError err)
      else inr {| returncode := rc; stdout := out; stderr := err |}
  end.

Record ChangeSet := {
  changed_files : list str;
  statistics : str;
  diff : str;
  truncated : bool;
  diff_line_count : Z;
  commits : option str
}.

(** The returned dict: [{"error": ...}] or the six fields. *)
Inductive result :=
| Error (msg : str)
| Changes (c : ChangeSet).

(** The two [except] clauses that close each [try] block; [prefix] is the
    text of the second one. *)
Definition handler (prefix : str) (e : exn) : result :=
  match e with
  | CalledProcessError err => Error (lit "Git error: " ++ err)
  | Exception msg => Error (prefix ++ msg)
  end.

Notation "'try' x <- c 'except' h ;; k" :=
  (match c with inl e => h e | inr x => k end)
  (at level 10, x name, c at level 10, h at level 10, k at level 200,
   only parsing).

(** The text appended to a truncated diff. The source writes it as a
    plain literal, so the braces stand in the text as they are. *)
Definition trailer_line1 : str :=
  lit "... Output truncated. Showing {max_diff_lines} of {len(diff_lines)} lines ...".
Definition trailer_line2 : str :=
  lit "... Use max_diff_lines parameter to see more ...".
Definition trailer : str :=
  [LF; LF] ++ trailer_line1 ++ [LF] ++ trailer_line2.

Definition placeholder : str :=
  lit "Diff not included (set include_diff=true to see full diff)".

(** [[line.strip() for line in out.strip().split("\n") if line.strip()]] *)
Definition parse_changed_files (out : str) : list str :=
  map strip (filter (fun line => truthy (strip line)) (split LF (strip out))).

(** The diff kept for a diff output [out] and a cap: the text, and
    whether it was cut. *)
Definition bounded_diff (out : str) (max_diff_lines : Z) : str * bool :=
  let diff_lines := splitlines out in
  let diff_line_count := len diff_lines in
  if (diff_line_count >? max_diff_lines)%Z then
    (join [LF] (slice_to diff_lines max_diff_lines) ++ trailer, true)
  else (out, false).

(** The four command lines, after ["git"]. *)
Definition name_status_args (base_branch : str) : list str :=
  [lit "diff"; lit "--name-status"; base_branch ++ lit "...HEAD"].
Definition stat_args (base_branch : str) : list str :=
  [lit "diff"; lit "--stat"; base_branch ++ lit "...HEAD"].
Definition diff_args (base_branch : str) : list str :=
  [lit "diff"; base_branch ++ lit "...HEAD"].
Definition log_args (base_branch : str) : list str :=
  [lit "log"; lit "--oneline"; base_branch ++ lit "..HEAD"].

Definition _get_git_changes (sys : system) (working_dir base_branch : str)
    (include_diff : bool) (max_diff_lines : Z) : result :=
  let git args := sys working_dir (lit "git" :: args) in
  let h1 := handler (lit "Failed to get changed files or stats: ") in
  let h2 := handler (lit "Failed to get diff or commits: ") in
  try result <- subprocess_run (git (name_status_args base_branch)) true
  except h1 ;;
  let changed_files := parse_changed_files (stdout result) in
  try stat_result <- subprocess_run (git (stat_args base_branch)) false
  except h1 ;;
  if include_diff then
    try diff_result <- subprocess_run (git (diff_args base_branch)) true
    except h2 ;;
    let diff_lines := splitlines (stdout diff_result) in
    let diff_line_count := len diff_lines in
    let '(diff, truncated) := bounded_diff (stdout diff_result) max_diff_lines in
    try commits_result <- subprocess_run (git (log_args base_branch)) false
    except h2 ;;
    Changes {| changed_files := changed_files;
               statistics := stdout stat_result;
               diff := diff;
               truncated := truncated;
               diff_line_count := diff_line_count;
               commits := Some (stdout commits_result) |}
  else
    Changes {| changed_files := changed_files;
               statistics := stdout stat_result;
               diff := placeholder;
               truncated := false;
               diff_line_count := 0;
               commits := None |}.

(** A command that exits with status 0 and prints [out]. *)
Definition succeeds (o : outcome) (out : str) : Prop :=
  exists err, o = Exited 0 out err.

(** A command that runs to its end and prints [out], whatever its exit
    status (what a call without [check] needs). *)
Definition completes (o : outcome) (out : str) : Prop :=
  exists rc err, o = Exited rc out err.

(** A decimal digit; a text that shows a number holds one. *)
Definition is_digit (c : char) : bool := ((48 <=? c) && (c <=? 57))%N.

(** A working copy for the examples: [git diff] prints [diff_out], and the
    other three commands print a fixed short text. *)
Definition sample_files : str := lit "M" ++ [9%N] ++ lit "server.py" ++ [LF].
Definition sample_stat : str := lit " 1 file changed, 2 insertions(+)" ++ [LF].
Definition sample_log : str := lit "1a2b3c4 Add server" ++ [LF].

Definition sample_repo (diff_out : str) : system :=
  fun _ argv =>
    match argv with
    | [_; sub; _] =>
        if Py.eqb sub (lit "diff") then Exited 0 diff_out [] else Raised (lit "usage")
    | [_; sub; opt; _] =>
        if Py.eqb sub (lit "log") then Exited 0 sample_log []
        else if Py.eqb opt (lit "--stat") then Exited 0 sample_stat []
        else Exited 0 sample_files []
    | _ => Raised (lit "usage")
    end.

(** Three lines and twelve lines of diff output, each ended by LF. *)
Definition three_lines : str := lit "a" ++ [LF] ++ lit "b" ++ [LF] ++ lit "c" ++ [LF].
Definition twelve_lines : str :=
  concat (map (fun l => lit l ++ [LF])
    ["+a"; "+b"; "+c"; "+d"; "+e"; "+f"; "+g"; "+h"; "+i"; "+j"; "+k"; "+l"]%string).

End Git.

(* ================================================================== *)
(** * The event feed: [get_recent_actions_events], [get_workflow_status] *)
(* ================================================================== *)

Module Actions.
Import Py.

(** A workflow identifier: GitHub sends an integer, other producers may
    send a string. As dict keys an integer and a string are never equal. *)
Inductive ident :=
| IdInt (n : Z)
| IdStr (s : str).

Definition ident_eqb (a b : ident) : bool :=
  match a, b with
  | IdInt n, IdInt m => (n =? m)%Z
  | IdStr s, IdStr t => Py.eqb s t
  | _, _ => false
  end.

(** [bool(workflow_id)]: [0] and [""] are falsy. *)
Definition ident_truthy (a : ident) : bool :=
  match a with
  | IdInt n => negb (n =? 0)%Z
  | IdStr s => truthy s
  end.

(** The nested ["workflow_run"] mapping, each field as [.get] reads it:
    [None] when the key is missing or null. The fields have the types of
    the webhook payload: an identifier, and strings. *)
Record run := {
  workflow_id : option ident;
  name : option str;
  status : option str;
  conclusion : option str;
  html_url : option str;
  created_at : option str
}.

(** The default [{}] of [event.get("workflow_run", {})]. *)
Definition empty_run : run :=
  {| workflow_id := None; name := None; status := None;
     conclusion := None; html_url := None; created_at := None |}.

Record event := {
  event_type : option str;
  workflow_run : option run
}.

(** One value of [workflow_statuses]. *)
Record WorkflowStatus := {
  ws_name : str;
  ws_status : option str;
  ws_conclusion : option str;
  ws_url : option str;
  ws_created_at : str
}.

(** [workflow_statuses]: a dict, in insertion order. *)
Definition dict := list (ident * WorkflowStatus).

Fixpoint dict_get (d : dict) (k : ident) : option WorkflowStatus :=
  match d with
  | [] => None
  | (k', v) :: d' => if ident_eqb k k' then Some v else dict_get d' k
  end.

(** [d[k] = v]: a present key keeps its place, a new key goes last. *)
Fixpoint dict_set (d : dict) (k : ident) (v : WorkflowStatus) : dict :=
  match d with
  | [] => [(k, v)]
  | (k', v') :: d' =>
      if ident_eqb k k' then (k', v) :: d' else (k', v') :: dict_set d' k v
  end.

Definition values (d : dict) : list WorkflowStatus := map snd d.

(** [result.sort(key=lambda x: x["created_at"], reverse=True)]: a stable
    sort, greatest [created_at] first; entries with equal keys keep their
    order. *)
Fixpoint insert_desc (x : WorkflowStatus) (l : list WorkflowStatus)
  : list WorkflowStatus :=
  match l with
  | [] => [x]
  | y :: l' =>
      if gtb (ws_created_at y) (ws_created_at x) then y :: insert_desc x l'
      else x :: y :: l'
  end.

Definition sort_desc (l : list WorkflowStatus) : list WorkflowStatus :=
  fold_right insert_desc [] l.

(** [a] may stand before [b] in the sorted list. *)
Definition not_older (a b : WorkflowStatus) : Prop :=
  leb (ws_created_at b) (ws_created_at a) = true.

(** What [_get_events] returns: the error dict, or the decoded feed. *)
Inductive feed :=
| FetchError (msg : str)
| Feed (events : list event).

(** [http] is the outcome of the GET: the text of the exception raised,
    or the decoded JSON body. *)
Definition _get_events (http : str + list event) : feed :=
  match http with
  | inl e => FetchError (lit "Failed to fetch events: " ++ e)
  | inr events => Feed events
  end.

(** The value a tool hands to [json.dumps]. *)
Inductive response :=
| RError (msg : str)
| RMessage (msg : str)
| REvents (events : list event)
| RStatuses (statuses : list WorkflowStatus).

Definition EVENTS_URL : str := lit "http://localhost:8080/events".

Definition get_recent_actions_events (events : feed) (limit : Z) : response :=
  match events with
  | FetchError msg => RError msg
  | Feed [] =>
      RMessage (lit "No GitHub Actions events received yet. Looked at " ++ EVENTS_URL)
  | Feed events => REvents (slice_from events (- limit))
  end.

Section WithLower.
(** [str.lower]. *)
Variable lower : str -> str.

(** One turn of the loop over [events]. *)
Definition step (workflow_name : option str) (workflow_statuses : dict)
    (ev : event) : dict :=
  match event_type ev with
  | Some ty =>
      if Py.eqb ty (lit "workflow_run") then
        let run := match workflow_run ev with Some r => r | None => empty_run end in
        match workflow_id run, name run, created_at run with
        | Some wid, Some workflow_name_from_event, Some created =>
            if ident_truthy wid && truthy workflow_name_from_event && truthy created then
              let skip :=
                match workflow_name with
                | Some wn =>
                    truthy wn
                    && negb (Py.eqb (lower wn) (lower workflow_name_from_event))
                | None => false
                end in
              if skip then workflow_statuses
              else
                let newer :=
                  match dict_get workflow_statuses wid with
                  | None => true
                  | Some stored => gtb created (ws_created_at stored)
                  end in
                if newer then
                  dict_set workflow_statuses wid
                    {| ws_name := workflow_name_from_event;
                       ws_status := status run;
                       ws_conclusion := conclusion run;
                       ws_url := html_url run;
                       ws_created_at := created |}
                else workflow_statuses
            else workflow_statuses
        | _, _, _ => workflow_statuses
        end
      else workflow_statuses
  | None => workflow_statuses
  end.

(** [workflow_statuses] when the loop ends. *)
Definition collect (workflow_name : option str) (events : list event) : dict :=
  fold_left (step workflow_name) events [].

(** The list that is serialized. *)
Definition statuses (workflow_name : option str) (events : list event)
  : list WorkflowStatus :=
  sort_desc (values (collect workflow_name events)).

Definition get_workflow_status (events : feed) (workflow_name : option str)
  : response :=
  match events with
  | FetchError msg => RError msg
  | Feed [] =>
      RMessage (lit "No GitHub Actions events received yet. Looked at EVENTS_URL")
  | Feed events => RStatuses (statuses workflow_name events)
  end.
Definition offer (d : dict) (k : ident) (v : WorkflowStatus) : dict :=
  match dict_get d k with
  | None => dict_set d k v
  | Some stored =>
      if gtb (ws_created_at v) (ws_created_at stored) then dict_set d k v else d
  end.

(** What one key holds after [v] is offered to it. *)
Definition better (cur : option WorkflowStatus) (v : WorkflowStatus)
  : option WorkflowStatus :=
  match cur with
  | None => Some v
  | Some stored =>
      if gtb (ws_created_at v) (ws_created_at stored) then Some v else Some stored
  end.

(** *** The loop body read in two halves

    The guards of the loop body decide whether an event is offered to
    the dict and with which key and entry ([candidate]); the last [if]
    stores an offered entry when the key is new or the entry is newer
    ([offer]). [ActionsSpec.step_candidate] shows [step] is the two
    together. *)
Definition candidate (workflow_name : option str) (ev : event)
  : option (ident * WorkflowStatus) :=
  match event_type ev with
  | Some ty =>
      if Py.eqb ty (lit "workflow_run") then
        let run := match workflow_run ev with Some r => r | None => empty_run end in
        match workflow_id run, name run, created_at run with
        | Some wid, Some workflow_name_from_event, Some created =>
            if ident_truthy wid && truthy workflow_name_from_event && truthy created then
              let skip :=
                match workflow_name with
                | Some wn =>
                    truthy wn
                    && negb (Py.eqb (lower wn) (lower workflow_name_from_event))
                | None => false
                end in
              if skip then None
              else Some (wid,
                         {| ws_name := workflow_name_from_event;
                            ws_status := status run;
                            ws_conclusion := conclusion run;
                            ws_url := html_url run;
                            ws_created_at := created |})
            else None
        | _, _, _ => None
        end
      else None
  | None => None
  end.

(** Whether the name an event carries equals [wn] up to case. *)
Definition name_matches (wn : str) (ev : event) : bool :=
  match workflow_run ev with
  | Some r =>
      match name r with
      | Some n => Py.eqb (lower wn) (lower n)
      | None => false
      end
  | None => false
  end.
(** What the key [k] holds when the loop has run over [events], having
    started with [cur] under that key. *)
Fixpoint latest (workflow_name : option str) (k : ident)
    (cur : option WorkflowStatus) (events : list event) : option WorkflowStatus :=
  match events with
  | [] => cur
  | ev :: rest =>
      latest workflow_name k
        (match candidate workflow_name ev with
         | Some (k', v) => if ident_eqb k k' then better cur v else cur
         | None => cur
         end)
        rest
  end.

(** The offered events of one key that tie on [created_at] carry the same
    entry. *)
Definition ties_agree (workflow_name : option str) (events : list event) : Prop :=
  forall e1 e2 k v1 v2,
    In e1 events -> In e2 events ->
    candidate workflow_name e1 = Some (k, v1) ->
    candidate workflow_name e2 = Some (k, v2) ->
    ws_created_at v1 = ws_created_at v2 -> v1 = v2.
End WithLower.

(** ** Events for the examples *)

Definition run_event (wid : Z) (nm st concl created : string) : event :=
  {| event_type := Some (lit "workflow_run");
     workflow_run :=
       Some {| workflow_id := Some (IdInt wid);
               name := Some (lit nm);
               status := Some (lit st);
               conclusion := Some (lit concl);
               html_url := Some (lit "https://github.com/o/r/actions/runs/7");
               created_at := Some (lit created) |} |}.

Definition run_status (nm st concl created : string) : WorkflowStatus :=
  {| ws_name := lit nm;
     ws_status := Some (lit st);
     ws_conclusion := Some (lit concl);
     ws_url := Some (lit "https://github.com/o/r/actions/runs/7");
     ws_created_at := lit created |}.

Definition ci_failed : event :=
  run_event 1 "CI" "completed" "failure" "2024-01-01T00:00:00Z".
Definition ci_passed : event :=
  run_event 1 "CI" "completed" "success" "2024-01-02T00:00:00Z".
(** A second report of the run of [ci_failed], with the same
    [created_at] and another conclusion. *)
Definition ci_rerun : event :=
  run_event 1 "CI" "completed" "success" "2024-01-01T00:00:00Z".
Definition deploy_run : event :=
  run_event 2 "Deploy" "in_progress" "" "2024-01-03T00:00:00Z".
Definition push_event : event :=
  {| event_type := Some (lit "push"); workflow_run := None |}.

End Actions.

(* ================================================================== *)
(** * Template selection: [get_pr_templates], [suggest_template] *)
(* ================================================================== *)

Module Templates.
Import Py.

(** [DEFAULT_TEMPLATES], in the order the dict literal lists it. *)
Definition DEFAULT_TEMPLATES : list (str * str) :=
  [ (lit "bug.md", lit "Bug Fix");
    (lit "feature.md", lit "Feature");
    (lit "docs.md", lit "Documentation");
    (lit "refactor.md", lit "Refactor");
    (lit "test.md", lit "Test");
    (lit "performance.md", lit "Performance");
    (lit "security.md", lit "Security") ].

Definition TYPE_MAPPING : list (str * str) :=
  [ (lit "bug", lit "bug.md");
    (lit "fix", lit "bug.md");
    (lit "feature", lit "feature.md");
    (lit "enhancement", lit "feature.md");
    (lit "docs", lit "docs.md");
    (lit "documentation", lit "docs.md");
    (lit "refactor", lit "refactor.md");
    (lit "cleanup", lit "refactor.md");
    (lit "test", lit "test.md");
    (lit "testing", lit "test.md");
    (lit "performance", lit "performance.md");
    (lit "optimization", lit "performance.md");
    (lit "security", lit "security.md") ].

(** [d.get(key, default)] on a dict with string keys. *)
Fixpoint get (d : list (str * str)) (key : str) (default : str) : str :=
  match d with
  | [] => default
  | (k, v) :: d' => if Py.eqb key k then v else get d' key default
  end.

Record template := {
  filename : str;
  template_type : str;
  content : str
}.

(** [read_text filename] is the text of [TEMPLATES_DIR / filename]. *)
Definition get_pr_templates (read_text : str -> str) : list template :=
  map (fun '(filename, template_type) =>
         {| filename := filename;
            template_type := template_type;
            content := read_text filename |})
      DEFAULT_TEMPLATES.

Record suggestion := {
  recommended_template : template;
  reasoning : str;
  template_content : str;
  usage_hint : str
}.

Inductive exn := IndexError.

(** [next((t for t in templates if t["filename"] == template_file),
    templates[0])]: the default [templates[0]] is evaluated first. *)
Definition first_match (templates : list template) (template_file : str)
  : exn + template :=
  match templates with
  | [] => inl IndexError
  | t0 :: _ =>
      inr (match find (fun t => Py.eqb (filename t) template_file) templates with
           | Some t => t
           | None => t0
           end)
  end.

Section WithLower.
Variable lower : str -> str.

Definition template_file_for (change_type : str) : str :=
  get TYPE_MAPPING (lower change_type) (lit "feature.md").

(** The body of [suggest_template] once the catalog is loaded. *)
Definition suggest_from (templates : list template)
    (changes_summary change_type : str) : exn + suggestion :=
  let template_file := template_file_for change_type in
  match first_match templates template_file with
  | inl e => inl e
  | inr selected_template =>
      inr {| recommended_template := selected_template;
             reasoning :=
               lit "Based on your analysis: '" ++ changes_summary
               ++ lit "', this appears to be a " ++ change_type
               ++ lit " change.";
             template_content := content selected_template;
             usage_hint :=
               lit "Claude can help you fill out this template based on the specific changes in your PR." |}
  end.

Definition suggest_template (read_text : str -> str)
    (changes_summary change_type : str) : exn + suggestion :=
  suggest_from (get_pr_templates read_text) changes_summary change_type.
End WithLower.

End Templates.

(* ================================================================== *)
(** * The remaining tools: [analyze_file_changes],
      [get_local_file_changes], [send_slack_notification] *)
(* ================================================================== *)

Module Tools.
Import Py Git.

(** A workspace root of the client: [str(root.uri)] and [root.uri.path]
    (a URL may have no path). *)
Record root := {
  uri : str;
  path : option str
}.

(** What [mcp.get_context()] followed by [list_roots()] comes to: the text
    of the exception raised, or the roots. *)
Definition roots_outcome : Type := str + list root.

(** [roots_result.roots[0].uri.path]; an empty list raises [IndexError]. *)
Definition first_root_path (roots : roots_outcome) : str + option str :=
  match roots with
  | inl e => inl e
  | inr [] => inl (lit "list index out of range")
  | inr (r :: _) => inr (path r)
  end.

(** [working_directory if working_directory else os.getcwd()]. *)
Definition or_getcwd (working_directory : option str) (getcwd : str) : str :=
  match working_directory with
  | Some w => if truthy w then w else getcwd
  | None => getcwd
  end.

(** ** [analyze_file_changes] *)

Inductive roots_check :=
| Found (count : Z) (roots : list str)
| NotFound (error : str).

Record debug_info := {
  provided_working_directory : option str;
  actual_cwd : str;
  server_process_cwd : str;
  server_file_location : str;
  roots_check_field : roots_check
}.

(** The dict that is serialized: the collector's dict with ["_debug"]
    added. *)
Record analysis := {
  changes : result;
  _debug : debug_info
}.

(** The first [try]: a missing [working_directory] is looked up in the
    roots, and any exception there is passed over. *)
Definition resolve_quietly (roots : roots_outcome)
    (working_directory : option str) : option str :=
  match working_directory with
  | None =>
      match first_root_path roots with
      | inr p => p
      | inl _ => None
      end
  | Some w => Some w
  end.

(** [roots1] and [roots2] are the outcomes of the two root listings,
    [getcwd] is [os.getcwd()] and [file_location] is
    [str(Path(__file__).parent)]. *)
Definition analyze_file_changes (sys : system) (roots1 roots2 : roots_outcome)
    (getcwd file_location : str)
    (base_branch : str) (include_diff : bool) (max_diff_lines : Z)
    (working_directory : option str) : analysis :=
  let working_directory := resolve_quietly roots1 working_directory in
  let cwd := or_getcwd working_directory getcwd in
  let check :=
    match roots2 with
    | inr roots => Found (len roots) (map uri roots)
    | inl e => NotFound e
    end in
  {| changes := _get_git_changes sys cwd base_branch include_diff max_diff_lines;
     _debug := {| provided_working_directory := working_directory;
                  actual_cwd := cwd;
                  server_process_cwd := getcwd;
                  server_file_location := file_location;
                  roots_check_field := check |} |}.

(** ** [get_local_file_changes] *)

Record LocalChanges := {
  status : list str;
  unstaged_diff : str;
  staged_diff : str;
  working_directory_used : str
}.

Inductive local_result :=
| LocalError (msg : str)
| Local (c : LocalChanges).

Definition local_handler (e : exn) : local_result :=
  match e with
  | CalledProcessError err => LocalError (lit "Git command failed: " ++ err)
  | Exception msg => LocalError (lit "Failed to get local file changes: " ++ msg)
  end.

(** The directory the three commands run in, or the exception of the root
    lookup, which this tool does not pass over. *)
Definition local_cwd (roots : roots_outcome) (getcwd : str)
    (working_directory : option str) : exn + str :=
  match working_directory with
  | None =>
      match first_root_path roots with
      | inl e => inl (Exception e)
      | inr p => inr (or_getcwd p getcwd)
      end
  | Some w => inr (or_getcwd (Some w) getcwd)
  end.

Definition status_args : list str := [lit "status"; lit "--porcelain"].
Definition unstaged_args : list str := [lit "diff"].
Definition staged_args : list str := [lit "diff"; lit "--staged"].

Definition get_local_file_changes (sys : system) (roots : roots_outcome)
    (getcwd : str) (working_directory : option str) : local_result :=
  try cwd <- local_cwd roots getcwd working_directory
  except local_handler ;;
  try status_result <- subprocess_run (sys cwd (lit "git" :: status_args)) true
  except local_handler ;;
  let status_output := splitlines (strip (stdout status_result)) in
  try unstaged_diff_result <- subprocess_run (sys cwd (lit "git" :: unstaged_args)) false
  except local_handler ;;
  try staged_diff_result <- subprocess_run (sys cwd (lit "git" :: staged_args)) false
  except local_handler ;;
  Local {| status := status_output;
           unstaged_diff := stdout unstaged_diff_result;
           staged_diff := stdout staged_diff_result;
           working_directory_used := cwd |}.

(** ** [send_slack_notification] *)

(** [str(n)] for an integer. *)
Definition str_of_int (n : Z) : str :=
  lit (DecimalString.NilZero.string_of_int (Z.to_int n)).

(** The answer to the POST: the status, and the body as [response.text()]
    reads it (or the text of the exception it raises). *)
Definition response : Type := Z * (str + str).

Definition success_prefix : str := lit "Slack notification sent successfully: ".

(** [webhook_url] is [os.getenv("SLACK_WEBHOOK_URL")]; [post url message]
    is what posting the payload of [message] to [url] comes to: the text of
    the exception raised, or the response. *)
Definition send_slack_notification (webhook_url : option str)
    (post : str -> str -> str + response) (message : str) : str :=
  match webhook_url with
  | None => lit "Error: SLACK_WEBHOOK_URL environment variable not set"
  | Some url =>
      if negb (truthy url) then
        lit "Error: SLACK_WEBHOOK_URL environment variable not set"
      else
        match post url message with
        | inl e => lit "Error sending message: " ++ e
        | inr (status, body) =>
            if (status =? 200)%Z then
              success_prefix ++ slice_to message 50 ++ lit "..."
            else
              match body with
              | inl e => lit "Error sending message: " ++ e
              | inr resp_text =>
                  lit "Error sending Slack notification: " ++ str_of_int status
                  ++ lit " - " ++ resp_text
              end
        end
  end.

(** [s.startswith(prefix)]. *)
Fixpoint startswith (prefix s : str) : bool :=
  match prefix, s with
  | [], _ => true
  | p :: prefix', c :: s' => N.eqb p c && startswith prefix' s'
  | _ :: _, [] => false
  end.

(** ** Events the status loop can use *)

(** The first guards of the loop of [get_workflow_status]: the event is a
    ["workflow_run"] event whose run has a truthy [workflow_id], [name]
    and [created_at]. *)
Definition complete (ev : Actions.event) : bool :=
  match Actions.event_type ev, Actions.workflow_run ev with
  | Some ty, Some r =>
      Py.eqb ty (lit "workflow_run")
      && match Actions.workflow_id r, Actions.name r, Actions.created_at r with
         | Some wid, Some nm, Some created =>
             Actions.ident_truthy wid && truthy nm && truthy created
         | _, _, _ => false
         end
  | _, _ => false
  end.

(** ** Working copies for the examples *)

Definition sample_status : str :=
  lit " M server.py" ++ [LF] ++ lit "?? notes.txt" ++ [LF].

(** [git status] prints [sample_status]; the two diffs print nothing. *)
Definition sample_worktree : system :=
  fun _ argv =>
    match argv with
    | [_; sub; _] =>
        if Py.eqb sub (lit "status") then Exited 0 sample_status []
        else Exited 0 [] []
    | [_; _] => Exited 0 [] []
    | _ => Raised (lit "usage")
    end.

(** Every command prints nothing and exits with status 0. *)
Definition clean_repo : system := fun _ _ => Exited 0 [] [].

(** Every command exits with status 128. *)
Definition not_a_repo : system :=
  fun _ _ => Exited 128 [] (lit "fatal: not a git repository").

End Tools.

(* ================================================================== *)
(** * Facts about the built-ins *)
(* ================================================================== *)

Module PyFacts.
Import Py.

Lemma eqb_eq (a b : str) : Py.eqb a b = true <-> a = b.
Proof.
  revert b; induction a as [|x a IH]; intros [|y b]; simpl;
    try (split; congruence).
  rewrite andb_true_iff, N.eqb_eq, IH.
  split; [intros [-> ->]; reflexivity | intros H; injection H; auto].
Qed.

Lemma eqb_refl (a : str) : Py.eqb a a = true.
Proof. apply eqb_eq; reflexivity. Qed.

Lemma eqb_neq (a b : str) : Py.eqb a b = false <-> a <> b.
Proof.
  rewrite <- eqb_eq. destruct (Py.eqb a b); split; congruence.
Qed.

Lemma compare_refl (a : str) : compare a a = Eq.
Proof.
  induction a as [|x a IH]; simpl; [reflexivity|].
  now rewrite N.compare_refl.
Qed.

Lemma compare_eq (a b : str) : compare a b = Eq -> a = b.
Proof.
  revert b; induction a as [|x a IH]; intros [|y b]; simpl; try congruence.
  destruct (N.compare_spec x y) as [->| |]; try discriminate.
  intros H; f_equal; auto.
Qed.

Lemma compare_antisym (a b : str) : compare b a = CompOpp (compare a b).
Proof.
  revert b; induction a as [|x a IH]; intros [|y b]; simpl; try reflexivity.
  rewrite (N.compare_antisym x y).
  destruct (N.compare x y); simpl; auto.
Qed.

Lemma compare_lt_trans (a b c : str) :
  compare a b = Lt -> compare b c = Lt -> compare a c = Lt.
Proof.
  revert b c; induction a as [|x a IH]; intros [|y b] [|z c]; simpl;
    try congruence.
  destruct (N.compare_spec x y), (N.compare_spec y z), (N.compare_spec x z);
    subst; try congruence; try lia; eauto.
Qed.

(** The order of strings, read off the boolean tests of the code. *)
Lemma gtb_lt (a b : str) : gtb a b = true <-> compare b a = Lt.
Proof.
  unfold gtb, ltb. destruct (compare b a); split; congruence.
Qed.

Lemma leb_le (a b : str) : leb a b = true <-> compare a b <> Gt.
Proof.
  unfold leb, gtb, ltb. rewrite (compare_antisym a b).
  destruct (compare a b); simpl; split; congruence.
Qed.

Lemma leb_refl (a : str) : leb a a = true.
Proof. apply leb_le. rewrite compare_refl. discriminate. Qed.

Lemma gtb_leb (a b : str) : gtb a b = true -> leb b a = true.
Proof.
  rewrite gtb_lt, leb_le. intros ->. discriminate.
Qed.

Lemma not_gtb_leb (a b : str) : gtb a b = false -> leb a b = true.
Proof. unfold leb. now intros ->. Qed.

Lemma leb_trans (a b c : str) :
  leb a b = true -> leb b c = true -> leb a c = true.
Proof.
  rewrite !leb_le. intros Hab Hbc.
  destruct (compare a b) eqn:E1; try congruence.
  - apply compare_eq in E1. now subst.
  - destruct (compare b c) eqn:E2; try congruence.
    + apply compare_eq in E2. subst. congruence.
    + rewrite (compare_lt_trans _ _ _ E1 E2). discriminate.
Qed.

Lemma leb_antisym (a b : str) :
  leb a b = true -> leb b a = true -> a = b.
Proof.
  rewrite !leb_le, (compare_antisym a b).
  destruct (compare a b) eqn:E; simpl; try congruence.
  intros _ _. now apply compare_eq.
Qed.

Lemma gtb_irrefl (a : str) : gtb a a = false.
Proof. unfold gtb, ltb. now rewrite compare_refl. Qed.

Lemma leb_gtb_false (a b : str) : leb a b = true -> gtb a b = false.
Proof. unfold leb. now destruct (gtb a b). Qed.

(** ** Lines *)

Lemma splitlines_cons_line (c : char) (s : str) :
  is_linebreak c = false ->
  splitlines (c :: s) =
    match splitlines s with [] => [[c]] | l :: ls => (c :: l) :: ls end.
Proof. intros H. simpl. now rewrite H. Qed.

(** Every line [splitlines] returns is free of line breaks. *)
Lemma splitlines_no_break (s : str) : Forall no_break (splitlines s).
Proof.
  assert (H : forall n s, (length s <= n)%nat -> Forall no_break (splitlines s)).
  { clear s. induction n as [|n IH]; intros [|c s] Hlen; simpl in *;
      try constructor; try lia.
    - destruct (is_linebreak c) eqn:Hc.
      + constructor; [constructor|].
        destruct (N.eqb c CR); [|apply IH; lia].
        destruct s as [|c' s']; [constructor|].
        destruct (N.eqb c' LF); apply IH; simpl in *; lia.
      + assert (Hs : Forall no_break (splitlines s)) by (apply IH; lia).
        destruct (splitlines s) as [|l ls].
        * repeat constructor. exact Hc.
        * inversion Hs; subst. constructor; [constructor|]; assumption. }
  apply (H (length s)). lia.
Qed.

(** A break-free line followed by LF is the first line of the text. *)
Lemma splitlines_line (l rest : str) :
  no_break l -> splitlines (l ++ LF :: rest) = l :: splitlines rest.
Proof.
  induction 1 as [|c l Hc Hl IH]; [reflexivity|].
  change ((c :: l) ++ LF :: rest) with (c :: (l ++ LF :: rest)).
  rewrite splitlines_cons_line by exact Hc. now rewrite IH.
Qed.

(** Joining break-free lines with LF and splitting gives them back. *)
Lemma splitlines_join (l : str) (ls : list str) (rest : str) :
  Forall no_break (l :: ls) ->
  splitlines (join [LF] (l :: ls) ++ LF :: rest) = (l :: ls) ++ splitlines rest.
Proof.
  revert l; induction ls as [|l' ls IH]; intros l H; inversion H; subst.
  - simpl. now apply splitlines_line.
  - assert (E : join [LF] (l :: l' :: ls) ++ LF :: rest
                = l ++ LF :: (join [LF] (l' :: ls) ++ LF :: rest)).
    { change (join [LF] (l :: l' :: ls)) with (l ++ [LF] ++ join [LF] (l' :: ls)).
      now rewrite <- !app_assoc. }
    rewrite E, splitlines_line by assumption.
    rewrite IH by assumption. reflexivity.
Qed.

Example splitlines_breaks :
  splitlines (lit "a" ++ [CR; LF] ++ lit "b" ++ [LF; LF] ++ lit "c" ++ [CR])
  = [lit "a"; lit "b"; []; lit "c"]
  /\ splitlines [] = []
  /\ splitlines [LF] = [[]]
  /\ split LF (lit "a" ++ [LF]) = [lit "a"; []]
  /\ strip ([9%N] ++ lit " M  a.py " ++ [LF]) = lit "M  a.py".
Proof. repeat split; reflexivity. Qed.

(** ** Slices *)

Example slices :
  slice_from [1; 2; 3]%Z (- 0) = [1; 2; 3]%Z
  /\ slice_from [1; 2; 3]%Z (- 1) = [3]%Z
  /\ slice_from [1; 2; 3]%Z (- 5) = [1; 2; 3]%Z
  /\ slice_from [1; 2; 3]%Z 1 = [2; 3]%Z
  /\ slice_to [1; 2; 3]%Z 5 = [1; 2; 3]%Z
  /\ slice_to [1; 2; 3]%Z (- 1) = [1; 2]%Z
  /\ slice_to [1; 2; 3]%Z (- 7) = [].
Proof. repeat split; reflexivity. Qed.

Lemma slice_to_firstn {A} (l : list A) (stop : Z) :
  (0 <= stop)%Z -> slice_to l stop = firstn (Z.to_nat stop) l.
Proof.
  intros H. unfold slice_to, clamp.
  destruct (Z.ltb_spec stop 0); [lia|].
  destruct (Nat.le_ge_cases (Z.to_nat stop) (length l)) as [Hle|Hge].
  - now rewrite Nat.min_l.
  - rewrite Nat.min_r by assumption.
    now rewrite !firstn_all2 by lia.
Qed.

End PyFacts.

(* ================================================================== *)
(** * The change collector *)
(* ================================================================== *)

Module GitSpec.
Import Py PyFacts Git.

Lemma run_checked (o : outcome) (out : str) :
  succeeds o out ->
  exists cp, subprocess_run o true = inr cp /\ stdout cp = out.
Proof. intros [err ->]. simpl. eauto. Qed.

Lemma run_unchecked (o : outcome) (out : str) :
  completes o out ->
  exists cp, subprocess_run o false = inr cp /\ stdout cp = out.
Proof. intros [rc [err ->]]. simpl. eauto. Qed.

Lemma trailer_lines :
  splitlines (LF :: trailer_line1 ++ [LF] ++ trailer_line2)
  = [[]; trailer_line1; trailer_line2].
Proof. vm_compute. reflexivity. Qed.

Lemma firstn_no_break (n : nat) (s : str) :
  Forall no_break (firstn n (splitlines s)).
Proof.
  pose proof (splitlines_no_break s) as H.
  rewrite <- (firstn_skipn n (splitlines s)) in H.
  apply Forall_app in H. tauto.
Qed.

(** The lines of a diff cut after [n] of its lines, [n] at least one and
    less than their number. *)
Lemma splitlines_cut (n : nat) (s : str) :
  (0 < n < length (splitlines s))%nat ->
  splitlines (join [LF] (firstn n (splitlines s)) ++ trailer)
  = firstn n (splitlines s) ++ [[]; trailer_line1; trailer_line2].
Proof.
  intros Hn.
  pose proof (firstn_no_break n s) as Hnb.
  pose proof (length_firstn n (splitlines s)) as Hlen.
  destruct (firstn n (splitlines s)) as [|l ls]; [simpl in Hlen; lia|].
  change trailer with (LF :: (LF :: trailer_line1 ++ [LF] ++ trailer_line2)).
  rewrite splitlines_join by assumption.
  now rewrite trailer_lines.
Qed.

Lemma bounded_diff_whole (out : str) (L : Z) :
  (len (splitlines out) <= L)%Z -> bounded_diff out L = (out, false).
Proof.
  intros H. unfold bounded_diff.
  destruct (Z.gtb_spec (len (splitlines out)) L); [lia | reflexivity].
Qed.

Lemma bounded_diff_cut (out : str) (L : Z) :
  (0 <= L < len (splitlines out))%Z ->
  bounded_diff out L
  = (join [LF] (firstn (Z.to_nat L) (splitlines out)) ++ trailer, true).
Proof.
  intros H. unfold bounded_diff.
  destruct (Z.gtb_spec (len (splitlines out)) L); [|lia].
  now rewrite slice_to_firstn by lia.
Qed.

(** What [_get_git_changes] returns when the four commands run. *)
Lemma changes_with_diff (sys : system) (wd base : str) (L : Z)
    (files_out stat_out diff_out log_out : str) :
  succeeds (sys wd (lit "git" :: name_status_args base)) files_out ->
  completes (sys wd (lit "git" :: stat_args base)) stat_out ->
  succeeds (sys wd (lit "git" :: diff_args base)) diff_out ->
  completes (sys wd (lit "git" :: log_args base)) log_out ->
  _get_git_changes sys wd base true L
  = Changes {| changed_files := parse_changed_files files_out;
               statistics := stat_out;
               diff := fst (bounded_diff diff_out L);
               truncated := snd (bounded_diff diff_out L);
               diff_line_count := len (splitlines diff_out);
               commits := Some log_out |}.
Proof.
  intros H1 H2 H3 H4. unfold _get_git_changes.
  destruct (run_checked _ _ H1) as [cp1 [-> <-]].
  destruct (run_unchecked _ _ H2) as [cp2 [-> <-]].
  destruct (run_checked _ _ H3) as [cp3 [-> <-]].
  destruct (run_unchecked _ _ H4) as [cp4 [-> <-]].
  now destruct (bounded_diff (stdout cp3) L).
Qed.

(** C2 (as the code has it). With [include_diff] true and a cap
    [L >= 0], when the four commands run and the diff has [N] lines:
    [diff_line_count] is [N]; if [N <= L] the diff is the whole output,
    not truncated, and its lines are the [N] lines; if [N > L] the result
    is truncated and its text is the first [L] lines joined by LF followed
    by the trailer, which adds three lines (an empty one and two of text)
    after the [L] kept lines when [L >= 1], and four lines in all when
    [L = 0]. *)
Theorem diff_bound (sys : system) (wd base : str) (L : Z)
    (files_out stat_out diff_out log_out : str) :
  (0 <= L)%Z ->
  succeeds (sys wd (lit "git" :: name_status_args base)) files_out ->
  completes (sys wd (lit "git" :: stat_args base)) stat_out ->
  succeeds (sys wd (lit "git" :: diff_args base)) diff_out ->
  completes (sys wd (lit "git" :: log_args base)) log_out ->
  exists c,
    _get_git_changes sys wd base true L = Changes c
    /\ diff_line_count c = len (splitlines diff_out)
    /\ ((len (splitlines diff_out) <= L)%Z ->
        truncated c = false
        /\ diff c = diff_out
        /\ splitlines (diff c) = splitlines diff_out)
    /\ ((len (splitlines diff_out) > L)%Z ->
        truncated c = true
        /\ diff c = join [LF] (firstn (Z.to_nat L) (splitlines diff_out)) ++ trailer
        /\ splitlines (diff c)
           = (if (L =? 0)%Z then [[]]
              else firstn (Z.to_nat L) (splitlines diff_out))
             ++ [[]; trailer_line1; trailer_line2]
        /\ len (splitlines (diff c)) = (if (L =? 0)%Z then 4 else L + 3)%Z).
Proof.
  intros HL H1 H2 H3 H4.
  eexists. split; [apply (@changes_with_diff sys wd base L _ _ _ _ H1 H2 H3 H4)|].
  cbn [diff_line_count truncated diff].
  split; [reflexivity|]. split.
  - intros HN. rewrite bounded_diff_whole by assumption. auto.
  - intros HN. rewrite bounded_diff_cut by lia. cbn [fst snd].
    split; [reflexivity|]. split; [reflexivity|].
    destruct (Z.eqb_spec L 0) as [->|HL0].
    + split; reflexivity.
    + assert (Hn : (0 < Z.to_nat L < length (splitlines diff_out))%nat)
        by (unfold len in HN; lia).
      rewrite splitlines_cut by assumption.
      split; [reflexivity|].
      unfold len. rewrite length_app, length_firstn. simpl. lia.
Qed.

Lemma diff_bound_witness :
  exists c,
    _get_git_changes (sample_repo three_lines) (lit "/repo") (lit "main") true 1
    = Changes c
    /\ diff_line_count c = 3%Z
    /\ truncated c = true
    /\ splitlines (diff c) = [lit "a"; []; trailer_line1; trailer_line2].
Proof.
  destruct (@diff_bound (sample_repo three_lines) (lit "/repo") (lit "main") 1
              sample_files sample_stat three_lines sample_log)
    as [c [Hc [Hn [_ Hcut]]]].
  - lia.
  - exists []. reflexivity.
  - exists 0%Z, []. reflexivity.
  - exists []. reflexivity.
  - exists 0%Z, []. reflexivity.
  - exists c. split; [exact Hc|]. split; [exact Hn|].
    destruct Hcut as [Ht [_ [Hl _]]]; [vm_compute; reflexivity|].
    split; [exact Ht | exact Hl].
Defined.

(** The claim C2 as written fails: a diff of three lines under a cap of
    one comes back as four lines, more than the cap plus one. *)
Lemma diff_bound_counterexample :
  exists c,
    _get_git_changes (sample_repo three_lines) (lit "/repo") (lit "main") true 1
    = Changes c
    /\ len (splitlines three_lines) = 3%Z
    /\ truncated c = true
    /\ splitlines (diff c) = [lit "a"; []; trailer_line1; trailer_line2]
    /\ ~ (len (splitlines (diff c)) <= 1 + 1)%Z.
Proof.
  eexists. split; [vm_compute; reflexivity|].
  cbn [truncated diff].
  repeat split; try (vm_compute; reflexivity).
  vm_compute. intros H. exact (H eq_refl).
Qed.

(** C3. With [include_diff] false, whatever [max_diff_lines] is, and
    whatever the diff and log commands would do, the collector returns a
    change set once the two listing commands have run: the diff is the
    placeholder, [commits] is [None], and [changed_files] and
    [statistics] are read off the two listings as usual. *)
Theorem no_diff_placeholder (sys : system) (wd base : str) (L : Z)
    (files_out stat_out : str) :
  succeeds (sys wd (lit "git" :: name_status_args base)) files_out ->
  completes (sys wd (lit "git" :: stat_args base)) stat_out ->
  _get_git_changes sys wd base false L
  = Changes {| changed_files := parse_changed_files files_out;
               statistics := stat_out;
               diff := placeholder;
               truncated := false;
               diff_line_count := 0;
               commits := None |}.
Proof.
  intros H1 H2. unfold _get_git_changes.
  destruct (run_checked _ _ H1) as [cp1 [-> <-]].
  destruct (run_unchecked _ _ H2) as [cp2 [-> <-]].
  reflexivity.
Qed.

Lemma no_diff_placeholder_witness :
  _get_git_changes (sample_repo twelve_lines) (lit "/repo") (lit "main") false (-7)
  = Changes {| changed_files := [lit "M" ++ [9%N] ++ lit "server.py"];
               statistics := sample_stat;
               diff := lit "Diff not included (set include_diff=true to see full diff)";
               truncated := false;
               diff_line_count := 0;
               commits := None |}.
Proof.
  apply (@no_diff_placeholder (sample_repo twelve_lines) (lit "/repo") (lit "main")
           (-7) sample_files sample_stat).
  - exists []. reflexivity.
  - exists 0%Z, []. reflexivity.
Defined.

(** C5, on the code. A diff of twelve lines under a cap of five keeps the
    first five lines, but the trailer that follows is the literal text of
    the source, braces included: it shows no digit, so neither 5 nor 12. *)
Theorem trailer_shows_no_number :
  exists c,
    _get_git_changes (sample_repo twelve_lines) (lit "/repo") (lit "main") true 5
    = Changes c
    /\ diff_line_count c = 12%Z
    /\ truncated c = true
    /\ splitlines (diff c)
       = [lit "+a"; lit "+b"; lit "+c"; lit "+d"; lit "+e"; [];
          lit "... Output truncated. Showing {max_diff_lines} of {len(diff_lines)} lines ...";
          lit "... Use max_diff_lines parameter to see more ..."]
    /\ existsb is_digit (diff c) = false.
Proof.
  eexists. split; [vm_compute; reflexivity|].
  cbn [diff_line_count truncated diff].
  repeat split; vm_compute; reflexivity.
Qed.

End GitSpec.

(* ================================================================== *)
(** * The event feed *)
(* ================================================================== *)

Module ActionsSpec.
Import Py PyFacts Actions.

(** ** Keys and the dict *)

Lemma ident_eqb_eq (a b : ident) : ident_eqb a b = true <-> a = b.
Proof.
  destruct a as [n|s], b as [m|t]; simpl; try (split; congruence).
  - rewrite Z.eqb_eq. split; congruence.
  - rewrite eqb_eq. split; congruence.
Qed.

Lemma ident_eqb_refl (a : ident) : ident_eqb a a = true.
Proof. now apply ident_eqb_eq. Qed.

Lemma ident_eqb_neq (a b : ident) : ident_eqb a b = false <-> a <> b.
Proof.
  rewrite <- ident_eqb_eq. destruct (ident_eqb a b); split; congruence.
Qed.

Ltac case_key k k' :=
  let E := fresh "E" in
  destruct (ident_eqb k k') eqn:E;
  [apply ident_eqb_eq in E; try subst | pose proof (proj1 (ident_eqb_neq _ _) E)].

Lemma get_set_same (d : dict) k v : dict_get (dict_set d k v) k = Some v.
Proof.
  induction d as [|[k' v'] d IH]; simpl.
  - now rewrite ident_eqb_refl.
  - destruct (ident_eqb k k') eqn:E; simpl; rewrite E; auto.
Qed.

Lemma get_set_other (d : dict) k v k' :
  k' <> k -> dict_get (dict_set d k v) k' = dict_get d k'.
Proof.
  intros Hne. apply ident_eqb_neq in Hne.
  induction d as [|[k0 v0] d IH]; simpl.
  - now rewrite Hne.
  - case_key k k0; simpl.
    + now rewrite Hne.
    + now rewrite IH.
Qed.

Lemma keys_set (d : dict) k v k' :
  In k' (map fst (dict_set d k v)) <-> k' = k \/ In k' (map fst d).
Proof.
  induction d as [|[k0 v0] d IH]; simpl.
  - intuition.
  - case_key k k0; simpl; [intuition|].
    rewrite IH. intuition.
Qed.

Lemma keys_set_nodup (d : dict) k v :
  NoDup (map fst d) -> NoDup (map fst (dict_set d k v)).
Proof.
  induction d as [|[k0 v0] d IH]; simpl; intros Hnd.
  - repeat constructor. intros [].
  - inversion Hnd as [|? ? Hnotin Hnd']; subst.
    case_key k k0; simpl.
    + constructor; assumption.
    + constructor; [|auto].
      rewrite keys_set. intros [->|Hin]; [congruence | contradiction].
Qed.

Lemma get_in (d : dict) k v : dict_get d k = Some v -> In (k, v) d.
Proof.
  induction d as [|[k0 v0] d IH]; simpl; [discriminate|].
  case_key k k0.
  - intros [= ->]. now left.
  - intros Hg. right. auto.
Qed.

Lemma get_none (d : dict) k : dict_get d k = None -> ~ In k (map fst d).
Proof.
  induction d as [|[k0 v0] d IH]; simpl; [tauto|].
  case_key k k0; [discriminate|].
  intros Hg [Heq|Hin]; [congruence | now apply IH].
Qed.

Lemma in_get (d : dict) k v :
  NoDup (map fst d) -> In (k, v) d -> dict_get d k = Some v.
Proof.
  induction d as [|[k0 v0] d IH]; simpl; [tauto|].
  intros Hnd Hin. inversion Hnd as [|? ? Hnotin Hnd']; subst.
  destruct Hin as [[= -> ->]|Hin].
  - now rewrite ident_eqb_refl.
  - case_key k k0.
    + exfalso. apply Hnotin. now apply (in_map fst) in Hin.
    + auto.
Qed.

(** Two dicts with the same lookups hold the same bindings, up to order. *)
Lemma same_lookups_perm (d1 d2 : dict) :
  NoDup (map fst d1) -> NoDup (map fst d2) ->
  (forall k, dict_get d1 k = dict_get d2 k) ->
  Permutation d1 d2.
Proof.
  intros H1 H2 Hget.
  apply NoDup_Permutation.
  - now apply NoDup_map_inv in H1.
  - now apply NoDup_map_inv in H2.
  - intros [k v]. split; intros Hin.
    + apply get_in. rewrite <- Hget. now apply in_get.
    + apply get_in. rewrite Hget. now apply in_get.
Qed.

(** ** Offering an entry *)

Lemma get_offer_same (d : dict) k v :
  dict_get (offer d k v) k = better (dict_get d k) v.
Proof.
  unfold offer, better. destruct (dict_get d k) as [s|] eqn:E.
  - destruct (gtb _ _); [apply get_set_same | exact E].
  - apply get_set_same.
Qed.

Lemma get_offer_other (d : dict) k v k' :
  k' <> k -> dict_get (offer d k v) k' = dict_get d k'.
Proof.
  intros Hne. unfold offer. destruct (dict_get d k) as [s|].
  - destruct (gtb _ _); [now apply get_set_other | reflexivity].
  - now apply get_set_other.
Qed.

Lemma offer_nodup (d : dict) k v :
  NoDup (map fst d) -> NoDup (map fst (offer d k v)).
Proof.
  intros H. unfold offer. destruct (dict_get d k) as [s|].
  - destruct (gtb _ _); [now apply keys_set_nodup | exact H].
  - now apply keys_set_nodup.
Qed.

(** ** The sort *)

Lemma insert_desc_perm x l : Permutation (x :: l) (insert_desc x l).
Proof.
  induction l as [|y l IH]; simpl; [reflexivity|].
  destruct (gtb _ _); [|reflexivity].
  rewrite perm_swap. now constructor.
Qed.

Lemma sort_desc_perm l : Permutation l (sort_desc l).
Proof.
  induction l as [|x l IH]; simpl; [constructor|].
  rewrite <- insert_desc_perm. now constructor.
Qed.

Lemma insert_desc_sorted x l :
  Sorted not_older l -> Sorted not_older (insert_desc x l).
Proof.
  induction l as [|y l IH]; simpl; intros Hs.
  - repeat constructor.
  - inversion Hs as [|? ? Hl Hhd]; subst.
    destruct (gtb (ws_created_at y) (ws_created_at x)) eqn:E.
    + constructor; [auto|].
      destruct l as [|z l]; simpl.
      * constructor. now apply gtb_leb.
      * destruct (gtb (ws_created_at z) (ws_created_at x)).
        -- inversion Hhd; subst. now constructor.
        -- constructor. now apply gtb_leb.
    + constructor; [exact Hs|]. constructor. now apply not_gtb_leb.
Qed.

(** The serialized list runs from the greatest [created_at] down. *)
Lemma sort_desc_sorted l : Sorted not_older (sort_desc l).
Proof.
  induction l as [|x l IH]; simpl; [constructor|].
  now apply insert_desc_sorted.
Qed.

(** Entries with equal [created_at] keep their order. *)
Example sort_desc_stable :
  sort_desc [run_status "A" "queued" "" "2024-01-01";
             run_status "B" "queued" "" "2024-01-02";
             run_status "C" "queued" "" "2024-01-01"]
  = [run_status "B" "queued" "" "2024-01-02";
     run_status "A" "queued" "" "2024-01-01";
     run_status "C" "queued" "" "2024-01-01"].
Proof. reflexivity. Qed.

(** ** The loop *)

Section Loop.
Variable lower : str -> str.
Variable wn : option str.

Lemma step_candidate (d : dict) (ev : event) :
  step lower wn d ev
  = match candidate lower wn ev with
    | Some (k, v) => offer d k v
    | None => d
    end.
Proof.
  unfold step, candidate, offer.
  destruct (event_type ev) as [ty|]; [|reflexivity].
  destruct (Py.eqb ty _); [|reflexivity].
  destruct (workflow_id _) as [wid|]; [|reflexivity].
  destruct (name _) as [nm|]; [|reflexivity].
  destruct (created_at _) as [ca|]; [|reflexivity].
  destruct (ident_truthy wid && truthy nm && truthy ca); [|reflexivity].
  destruct wn as [w|]; cbn beta iota.
  - destruct (truthy w && negb _); [reflexivity|].
    destruct (dict_get d wid); reflexivity.
  - destruct (dict_get d wid); reflexivity.
Qed.

Lemma step_nodup (d : dict) (ev : event) :
  NoDup (map fst d) -> NoDup (map fst (step lower wn d ev)).
Proof.
  intros H. rewrite step_candidate.
  destruct (candidate lower wn ev) as [[k v]|]; [now apply offer_nodup | exact H].
Qed.

Lemma loop_nodup (evs : list event) (d : dict) :
  NoDup (map fst d) -> NoDup (map fst (fold_left (step lower wn) evs d)).
Proof.
  revert d; induction evs as [|ev evs IH]; intros d H; simpl; [exact H|].
  apply IH. now apply step_nodup.
Qed.

(** Key by key, the loop is [latest]. *)
Lemma loop_get (evs : list event) (d : dict) (k : ident) :
  dict_get (fold_left (step lower wn) evs d) k
  = latest lower wn k (dict_get d k) evs.
Proof.
  revert d; induction evs as [|ev evs IH]; intros d; simpl; [reflexivity|].
  rewrite IH, step_candidate.
  destruct (candidate lower wn ev) as [[k' v]|]; [|reflexivity].
  case_key k k'.
  - now rewrite get_offer_same.
  - now rewrite get_offer_other.
Qed.

Lemma collect_get (evs : list event) (k : ident) :
  dict_get (collect lower wn evs) k = latest lower wn k None evs.
Proof. unfold collect. now rewrite loop_get. Qed.

(** An entry once stored is only ever replaced by a newer one. *)
Lemma better_some cur v :
  exists s, better cur v = Some s
            /\ leb (ws_created_at v) (ws_created_at s) = true
            /\ (s = v \/ cur = Some s)
            /\ (forall c, cur = Some c ->
                leb (ws_created_at c) (ws_created_at s) = true).
Proof.
  unfold better. destruct cur as [c|].
  - destruct (gtb (ws_created_at v) (ws_created_at c)) eqn:E.
    + exists v. repeat split; auto using leb_refl.
      intros c' [= <-]. now apply gtb_leb.
    + exists c. repeat split; auto using not_gtb_leb.
      intros c' [= <-]. apply leb_refl.
  - exists v. repeat split; auto using leb_refl. discriminate.
Qed.

(** What [latest] returns: an entry offered for the key (or the starting
    one), not older than any other. *)
Lemma latest_some (k : ident) (evs : list event) cur s :
  latest lower wn k cur evs = Some s ->
  (cur = Some s
   \/ exists ev, In ev evs /\ candidate lower wn ev = Some (k, s))
  /\ (forall c, cur = Some c -> leb (ws_created_at c) (ws_created_at s) = true)
  /\ (forall ev v, In ev evs -> candidate lower wn ev = Some (k, v) ->
      leb (ws_created_at v) (ws_created_at s) = true).
Proof.
  revert cur; induction evs as [|ev evs IH]; intros cur H; simpl in H.
  - subst. split; [now left|]. split.
    + intros c [= <-]. apply leb_refl.
    + intros ev v [].
  - apply IH in H. destruct H as [Hfrom [Hcur Hall]].
    destruct (candidate lower wn ev) as [[k' v]|] eqn:Ec.
    + case_key k k'.
      * destruct (better_some cur v) as [b [Eb [Hvb [Hb Hcb]]]].
        rewrite Eb in Hfrom, Hcur.
        pose proof (Hcur b eq_refl) as Hbs.
        split; [|split].
        -- destruct Hfrom as [[= <-]|[ev' [Hin Hc]]].
           ++ destruct Hb as [->|Hb]; [|now left].
              right. exists ev. split; [now left | exact Ec].
           ++ right. exists ev'. split; [now right | exact Hc].
        -- intros c Hc. eapply leb_trans; [apply (Hcb c Hc) | exact Hbs].
        -- intros ev' v' [<-|Hin] Hc.
           ++ rewrite Ec in Hc. injection Hc as <-.
              eapply leb_trans; [exact Hvb | exact Hbs].
           ++ eapply Hall; eauto.
      * split; [|split]; auto.
        -- destruct Hfrom as [Hfrom|[ev' [Hin Hc]]]; [now left|].
           right. exists ev'. split; [now right | exact Hc].
        -- intros ev' v' [<-|Hin] Hc; [|eapply Hall; eauto].
           rewrite Ec in Hc. congruence.
    + split; [|split]; auto.
      * destruct Hfrom as [Hfrom|[ev' [Hin Hc]]]; [now left|].
        right. exists ev'. split; [now right | exact Hc].
      * intros ev' v' [<-|Hin] Hc; [congruence | eapply Hall; eauto].
Qed.

Lemma latest_keeps_some (k : ident) (evs : list event) cur :
  cur <> None -> latest lower wn k cur evs <> None.
Proof.
  revert cur; induction evs as [|ev evs IH]; intros cur H; simpl; [exact H|].
  apply IH. destruct (candidate lower wn ev) as [[k' v]|]; [|exact H].
  destruct (ident_eqb k k'); [|exact H].
  destruct (better_some cur v) as [b [-> _]]. discriminate.
Qed.

(** A key some event was offered for is a key of the result. *)
Lemma latest_offered (k : ident) (evs : list event) cur ev v :
  In ev evs -> candidate lower wn ev = Some (k, v) ->
  latest lower wn k cur evs <> None.
Proof.
  revert cur; induction evs as [|e evs IH]; intros cur Hin Hc; simpl in *;
    [contradiction|].
  destruct Hin as [<-|Hin].
  - rewrite Hc, ident_eqb_refl. apply latest_keeps_some.
    destruct (better_some cur v) as [b [-> _]]. discriminate.
  - now apply IH.
Qed.

Lemma collect_two_same_key (e1 e2 : event) k v1 v2 :
  candidate lower wn e1 = Some (k, v1) ->
  candidate lower wn e2 = Some (k, v2) ->
  collect lower wn [e1; e2]
  = [(k, if gtb (ws_created_at v2) (ws_created_at v1) then v2 else v1)].
Proof.
  intros H1 H2. unfold collect. simpl.
  rewrite !step_candidate, H1, H2. unfold offer. simpl.
  rewrite ident_eqb_refl.
  destruct (gtb _ _); simpl; now rewrite ?ident_eqb_refl.
Qed.

(** An event that ties with an earlier one of its key changes nothing,
    whatever was processed in between. *)
Lemma step_after_tie (d : dict) (e1 e2 : event) (mid : list event) k v1 v2 :
  candidate lower wn e1 = Some (k, v1) ->
  candidate lower wn e2 = Some (k, v2) ->
  ws_created_at v1 = ws_created_at v2 ->
  step lower wn (fold_left (step lower wn) mid (step lower wn d e1)) e2
  = fold_left (step lower wn) mid (step lower wn d e1).
Proof.
  intros H1 H2 Hca.
  rewrite (step_candidate _ e2), H2. unfold offer.
  rewrite loop_get, (step_candidate d e1), H1, get_offer_same.
  destruct (better_some (dict_get d k) v1) as [b [Eb [Hvb _]]]. rewrite Eb.
  destruct (latest lower wn k (Some b) mid) as [s|] eqn:El.
  - apply latest_some in El. destruct El as [_ [Hcur _]].
    pose proof (Hcur b eq_refl) as Hbs.
    rewrite <- Hca.
    now rewrite (leb_gtb_false _ _ (leb_trans _ _ _ Hvb Hbs)).
  - exfalso. revert El. apply latest_keeps_some. discriminate.
Qed.

End Loop.

(** ** The two views *)

Lemma status_view (lower : str -> str) (wn : option str) (evs : list event) :
  evs <> [] ->
  get_workflow_status lower (Feed evs) wn = RStatuses (statuses lower wn evs).
Proof. destruct evs; [congruence | reflexivity]. Qed.

(** C1. The dict the loop builds has one binding per workflow id, and the
    serialized list is its values in another order. Each binding comes from
    a valid, filter-matching [workflow_run] event of that id whose
    [created_at] no other such event of the id exceeds, and every id with
    such an event has a binding. Two such events of one id with different
    [created_at] give one entry, that of the greater [created_at], in
    either input order. *)
Theorem one_entry_per_workflow (lower : str -> str) (wn : option str)
    (evs : list event) :
  NoDup (map fst (collect lower wn evs))
  /\ Permutation (values (collect lower wn evs)) (statuses lower wn evs)
  /\ (forall k v, In (k, v) (collect lower wn evs) ->
      exists ev, In ev evs /\ candidate lower wn ev = Some (k, v)
        /\ forall ev' v', In ev' evs -> candidate lower wn ev' = Some (k, v') ->
           leb (ws_created_at v') (ws_created_at v) = true)
  /\ (forall ev k v, In ev evs -> candidate lower wn ev = Some (k, v) ->
      exists v', In (k, v') (collect lower wn evs))
  /\ (forall e1 e2 k v1 v2,
      candidate lower wn e1 = Some (k, v1) ->
      candidate lower wn e2 = Some (k, v2) ->
      gtb (ws_created_at v2) (ws_created_at v1) = true ->
      get_workflow_status lower (Feed [e1; e2]) wn = RStatuses [v2]
      /\ get_workflow_status lower (Feed [e2; e1]) wn = RStatuses [v2]).
Proof.
  assert (Hnd : NoDup (map fst (collect lower wn evs)))
    by (apply loop_nodup; constructor).
  split; [exact Hnd|]. split; [apply sort_desc_perm|]. split; [|split].
  - intros k v Hin. apply (in_get _ _ _ Hnd) in Hin.
    rewrite collect_get in Hin. apply latest_some in Hin.
    destruct Hin as [[Hfrom|[ev [Hin Hc]]] [_ Hall]]; [discriminate|].
    exists ev. auto.
  - intros ev k v Hin Hc.
    destruct (dict_get (collect lower wn evs) k) as [v'|] eqn:E.
    + exists v'. now apply get_in.
    + exfalso. rewrite collect_get in E. revert E.
      eapply latest_offered; eauto.
  - intros e1 e2 k v1 v2 H1 H2 Hgt. unfold get_workflow_status, statuses.
    rewrite (collect_two_same_key lower wn _ _ _ _ _ H1 H2), (collect_two_same_key lower wn _ _ _ _ _ H2 H1).
    rewrite Hgt, (leb_gtb_false _ _ (gtb_leb _ _ Hgt)). split; reflexivity.
Qed.

(** The scenario of the specification: a failed run, then the same workflow
    passing a day later. *)
Example latest_run_wins :
  get_workflow_status ascii_lower (Feed [ci_failed; ci_passed]) None
  = RStatuses [run_status "CI" "completed" "success" "2024-01-02T00:00:00Z"].
Proof. vm_compute. reflexivity. Qed.

(** C9. Of two valid events of one workflow id with equal [created_at],
    the later one changes nothing wherever it stands after the earlier one:
    the loop ends in the same dict as without it, and the two alone give
    the entry of the earlier. In any state an offered entry replaces the
    stored one exactly when its [created_at] is strictly greater. *)
Theorem tie_keeps_earlier (lower : str -> str) (wn : option str)
    (pre mid post : list event) (e1 e2 : event) k v1 v2 :
  candidate lower wn e1 = Some (k, v1) ->
  candidate lower wn e2 = Some (k, v2) ->
  ws_created_at v1 = ws_created_at v2 ->
  collect lower wn (pre ++ e1 :: mid ++ e2 :: post)
  = collect lower wn (pre ++ e1 :: mid ++ post)
  /\ get_workflow_status lower (Feed [e1; e2]) wn = RStatuses [v1]
  /\ (forall d stored, dict_get d k = Some stored ->
      step lower wn d e2
      = if gtb (ws_created_at v2) (ws_created_at stored) then dict_set d k v2
        else d).
Proof.
  intros H1 H2 Hca. split; [|split].
  - unfold collect. rewrite !fold_left_app. simpl.
    rewrite !fold_left_app. simpl.
    now rewrite (step_after_tie lower wn _ _ _ _ _ _ _ H1 H2 Hca).
  - unfold get_workflow_status, statuses.
    rewrite (collect_two_same_key lower wn _ _ _ _ _ H1 H2), <- Hca, gtb_irrefl. reflexivity.
  - intros d stored Hd. rewrite step_candidate, H2. unfold offer. now rewrite Hd.
Qed.

Lemma tie_keeps_earlier_witness :
  collect ascii_lower None ([push_event] ++ ci_failed :: [ci_passed] ++ ci_rerun :: [deploy_run])
  = collect ascii_lower None ([push_event] ++ ci_failed :: [ci_passed] ++ [deploy_run])
  /\ get_workflow_status ascii_lower (Feed [ci_failed; ci_rerun]) None
     = RStatuses [run_status "CI" "completed" "failure" "2024-01-01T00:00:00Z"].
Proof.
  destruct (@tie_keeps_earlier ascii_lower None [push_event] [ci_passed] [deploy_run]
              ci_failed ci_rerun (IdInt 1)
              (run_status "CI" "completed" "failure" "2024-01-01T00:00:00Z")
              (run_status "CI" "completed" "success" "2024-01-01T00:00:00Z"))
    as [Hsame [Htwo _]]; try reflexivity.
  split; [exact Hsame | exact Htwo].
Defined.

(** ** Reordering the feed *)

Section Reordering.
Variable lower : str -> str.
Variable wn : option str.

Lemma latest_perm (evs evs' : list event) (k : ident) :
  Permutation evs evs' -> ties_agree lower wn evs ->
  latest lower wn k None evs = latest lower wn k None evs'.
Proof.
  intros Hp Hties.
  destruct (latest lower wn k None evs) as [v|] eqn:E1;
    destruct (latest lower wn k None evs') as [v'|] eqn:E2; try reflexivity.
  - apply latest_some in E1, E2.
    destruct E1 as [[?|[e1 [Hin1 Hc1]]] [_ Hmax1]]; [discriminate|].
    destruct E2 as [[?|[e2 [Hin2 Hc2]]] [_ Hmax2]]; [discriminate|].
    apply Permutation_sym in Hp.
    pose proof (Permutation_in _ Hp Hin2) as Hin2'.
    apply Permutation_sym in Hp.
    pose proof (Permutation_in _ Hp Hin1) as Hin1'.
    f_equal. apply (Hties e1 e2 k v v' Hin1 Hin2' Hc1 Hc2).
    apply leb_antisym; [eapply Hmax2 | eapply Hmax1]; eauto.
  - exfalso. apply latest_some in E1.
    destruct E1 as [[?|[e1 [Hin1 Hc1]]] _]; [discriminate|].
    revert E2. eapply latest_offered; [|exact Hc1].
    eapply Permutation_in; eauto.
  - exfalso. apply latest_some in E2.
    destruct E2 as [[?|[e2 [Hin2 Hc2]]] _]; [discriminate|].
    revert E1. eapply latest_offered; [|exact Hc2].
    eapply Permutation_in; [apply Permutation_sym|]; eauto.
Qed.

End Reordering.

(** C4 (as the code has it). When two event lists are permutations of each
    other and the valid, filter-matching events of one workflow id that tie
    on [created_at] carry the same entry, the loop ends with the same
    bindings and the serialized lists hold the same entries, each as many
    times. *)
Theorem reordering_keeps_statuses (lower : str -> str) (wn : option str)
    (evs evs' : list event) :
  Permutation evs evs' ->
  ties_agree lower wn evs ->
  Permutation (collect lower wn evs) (collect lower wn evs')
  /\ Permutation (statuses lower wn evs) (statuses lower wn evs').
Proof.
  intros Hp Hties.
  assert (Hd : Permutation (collect lower wn evs) (collect lower wn evs')).
  { apply same_lookups_perm; try (apply loop_nodup; constructor).
    intros k. rewrite !collect_get. now apply latest_perm. }
  split; [exact Hd|].
  unfold statuses.
  rewrite <- !sort_desc_perm. unfold values. now apply Permutation_map.
Qed.

Lemma reordering_keeps_statuses_witness :
  Permutation (collect ascii_lower None [ci_failed; deploy_run; ci_passed])
              (collect ascii_lower None [ci_passed; ci_failed; deploy_run])
  /\ Permutation (statuses ascii_lower None [ci_failed; deploy_run; ci_passed])
                 (statuses ascii_lower None [ci_passed; ci_failed; deploy_run]).
Proof.
  apply (reordering_keeps_statuses ascii_lower None
           [ci_failed; deploy_run; ci_passed] [ci_passed; ci_failed; deploy_run]).
  - apply Permutation_sym, (Permutation_cons_app [ci_failed; deploy_run] []).
    apply Permutation_refl.
  - intros e1 e2 k v1 v2 H1 H2.
    simpl in H1, H2.
    destruct H1 as [<-|[<-|[<-|[]]]]; destruct H2 as [<-|[<-|[<-|[]]]];
      vm_compute; intros Hc1 Hc2 Hca;
      inversion Hc1; subst; inversion Hc2; subst;
      try reflexivity; vm_compute in Hca; discriminate Hca.
Defined.

(** The claim C4 as written fails: two reports of one workflow id with the
    same [created_at] and different conclusions give the entry of whichever
    comes first, so the two orders give different entries. *)
Lemma reordering_counterexample :
  Permutation [ci_failed; ci_rerun] [ci_rerun; ci_failed]
  /\ statuses ascii_lower None [ci_failed; ci_rerun]
     = [run_status "CI" "completed" "failure" "2024-01-01T00:00:00Z"]
  /\ statuses ascii_lower None [ci_rerun; ci_failed]
     = [run_status "CI" "completed" "success" "2024-01-01T00:00:00Z"]
  /\ ~ (forall x, In x (statuses ascii_lower None [ci_failed; ci_rerun])
                  <-> In x (statuses ascii_lower None [ci_rerun; ci_failed])).
Proof.
  split; [apply perm_swap|].
  split; [vm_compute; reflexivity|].
  split; [vm_compute; reflexivity|].
  intros H.
  specialize (H (run_status "CI" "completed" "failure" "2024-01-01T00:00:00Z")).
  destruct H as [H _].
  assert (Hin : In (run_status "CI" "completed" "failure" "2024-01-01T00:00:00Z")
                   (statuses ascii_lower None [ci_rerun; ci_failed]))
    by (apply H; vm_compute; now left).
  vm_compute in Hin. destruct Hin as [Heq|[]]. discriminate Heq.
Qed.

(** ** The name filter *)

Lemma if_same {A : Type} (b : bool) (x : A) : (if b then x else x) = x.
Proof. now destruct b. Qed.

Section NameFilter.
Variable lower : str -> str.

(** With a non-empty filter, one turn of the loop is a turn of the
    unfiltered loop when the name matches up to case, and nothing
    otherwise. *)
Lemma step_filtered (w : str) (d : dict) (ev : event) :
  truthy w = true ->
  step lower (Some w) d ev
  = if name_matches lower w ev then step lower None d ev else d.
Proof.
  intros Hw. unfold step, name_matches.
  destruct (event_type ev) as [ty|]; [|now rewrite if_same].
  destruct (Py.eqb ty _); [|now rewrite if_same].
  destruct (workflow_run ev) as [r|]; [|reflexivity].
  destruct (name r) as [n|]; [|now destruct (workflow_id r)].
  destruct (workflow_id r) as [wid|]; [|now rewrite if_same].
  destruct (created_at r) as [ca|]; [|now rewrite if_same].
  destruct (ident_truthy wid && truthy n && truthy ca); [|now rewrite if_same].
  rewrite Hw. cbn [andb].
  now destruct (Py.eqb (lower w) (lower n)).
Qed.

Lemma loop_filtered (w : str) (evs : list event) (d : dict) :
  truthy w = true ->
  fold_left (step lower (Some w)) evs d
  = fold_left (step lower None) (filter (name_matches lower w) evs) d.
Proof.
  intros Hw. revert d; induction evs as [|ev evs IH]; intros d; simpl;
    [reflexivity|].
  rewrite step_filtered by exact Hw.
  destruct (name_matches lower w ev); simpl; apply IH.
Qed.

Lemma candidate_filtered (w : str) (ev : event) k v :
  truthy w = true ->
  candidate lower None ev = Some (k, v) ->
  candidate lower (Some w) ev
  = (if Py.eqb (lower w) (lower (ws_name v)) then Some (k, v) else None)
  /\ name_matches lower w ev = Py.eqb (lower w) (lower (ws_name v)).
Proof.
  intros Hw. unfold candidate, name_matches.
  destruct (event_type ev) as [ty|]; [|discriminate].
  destruct (Py.eqb ty _); [|discriminate].
  destruct (workflow_run ev) as [r|]; [|discriminate].
  destruct (workflow_id r) as [wid|]; [|discriminate].
  destruct (name r) as [n|]; [|discriminate].
  destruct (created_at r) as [ca|]; [|discriminate].
  destruct (ident_truthy wid && truthy n && truthy ca); [|discriminate].
  intros [= <- <-]. rewrite Hw. cbn [andb ws_name].
  now destruct (Py.eqb (lower w) (lower n)).
Qed.

End NameFilter.

(** C6. With a non-empty filter [w], the loop over a feed ends in the dict
    the unfiltered loop builds over the events whose name equals [w] up to
    case: the others change nothing. A valid event is offered under the
    filter exactly when its lowered name equals the lowered filter, and an
    event that does not match leaves every dict as it is. With the filter
    "deploy", a feed holding a run named "Deploy" among other events gives
    that run's entry alone. *)
Theorem name_filter_skips (lower : str -> str) (w : str) :
  lower_on_ascii lower ->
  truthy w = true ->
  (forall evs,
     collect lower (Some w) evs
     = collect lower None (filter (name_matches lower w) evs)
     /\ statuses lower (Some w) evs
        = statuses lower None (filter (name_matches lower w) evs))
  /\ (forall ev k v,
      candidate lower None ev = Some (k, v) ->
      candidate lower (Some w) ev
      = if Py.eqb (lower w) (lower (ws_name v)) then Some (k, v) else None)
  /\ (forall d ev,
      name_matches lower w ev = false -> step lower (Some w) d ev = d)
  /\ get_workflow_status lower (Feed [ci_passed; deploy_run; push_event])
       (Some (lit "deploy"))
     = RStatuses [run_status "Deploy" "in_progress" "" "2024-01-03T00:00:00Z"].
Proof.
  intros Hlow Hw. split; [|split; [|split]].
  - intros evs. unfold statuses, collect.
    now rewrite loop_filtered by exact Hw.
  - intros ev k v Hc. now apply candidate_filtered.
  - intros d ev Hm. rewrite step_filtered by exact Hw. now rewrite Hm.
  - unfold get_workflow_status, statuses, collect.
    rewrite loop_filtered by reflexivity.
    unfold filter, name_matches, ci_passed, deploy_run, push_event, run_event.
    cbn [workflow_run name].
    rewrite !Hlow by reflexivity.
    vm_compute. reflexivity.
Qed.

Lemma name_filter_skips_witness :
  collect ascii_lower (Some (lit "deploy")) [ci_passed; deploy_run; ci_failed]
  = collect ascii_lower None [deploy_run]
  /\ get_workflow_status ascii_lower (Feed [ci_passed; deploy_run; push_event])
       (Some (lit "deploy"))
     = RStatuses [run_status "Deploy" "in_progress" "" "2024-01-03T00:00:00Z"].
Proof.
  destruct (name_filter_skips ascii_lower (lit "deploy")) as [Hall [_ [_ Hex]]].
  - intros s _. reflexivity.
  - reflexivity.
  - split; [|exact Hex].
    exact (proj1 (Hall [ci_passed; deploy_run; ci_failed])).
Defined.

(** ** The raw view *)

(** For a positive limit the raw view is the last [limit] events (all of
    them when there are fewer), unchanged and in feed order. *)
Lemma recent_positive_limit (evs : list event) (limit : Z) :
  evs <> [] -> (0 < limit)%Z ->
  get_recent_actions_events (Feed evs) limit
  = REvents (skipn (length evs - Z.to_nat limit) evs).
Proof.
  intros Hne Hl. destruct evs as [|e evs]; [congruence|].
  unfold get_recent_actions_events, slice_from, clamp.
  destruct (Z.ltb_spec (- limit) 0); [|lia].
  do 2 f_equal. lia.
Qed.

(** C8, on the code. With a limit of zero the raw view returns the whole
    feed, not its last zero events: [events[-0:]] is [events[0:]]. *)
Theorem recent_limit_zero :
  get_recent_actions_events (Feed [ci_failed; ci_passed; deploy_run]) 0
  = REvents [ci_failed; ci_passed; deploy_run].
Proof. reflexivity. Qed.

(** A negative limit drops that many events from the front. *)
Example recent_negative_limit :
  get_recent_actions_events (Feed [ci_failed; ci_passed; deploy_run]) (-1)
  = REvents [ci_passed; deploy_run].
Proof. reflexivity. Qed.

End ActionsSpec.

(* ================================================================== *)
(** * Template selection *)
(* ================================================================== *)

Module TemplatesSpec.
Import Py PyFacts Templates.

Create HintDb catalog.

(** [d.get(key, default)] is the default or a value of the dict. *)
Lemma get_default_or_value (d : list (str * str)) (key default : str) :
  (get d key default = default /\ forall k v, In (k, v) d -> k <> key)
  \/ exists k, In (k, get d key default) d /\ k = key.
Proof.
  induction d as [|[k v] d IH]; simpl.
  - left. split; [reflexivity | intros k v []].
  - destruct (Py.eqb key k) eqn:E.
    + apply eqb_eq in E. subst. right. exists k. split; [now left | reflexivity].
    + apply eqb_neq in E. destruct IH as [[Hd Hno]|[k' [Hin Hk]]].
      * left. split; [exact Hd|].
        intros k0 v0 [[= <- <-]|Hin]; [congruence | eauto].
      * right. exists k'. split; [now right | exact Hk].
Qed.

(** The keyword table names only files of [DEFAULT_TEMPLATES]. *)
Lemma mapped_in_catalog (f : str) :
  In f (map snd TYPE_MAPPING) -> In f (map fst DEFAULT_TEMPLATES).
Proof.
  intros Hin. vm_compute in Hin. vm_compute.
  repeat (destruct Hin as [<-|Hin]; [tauto|]). contradiction.
Qed.

(** Every filename the keyword table can resolve to, the default included,
    is a filename of [DEFAULT_TEMPLATES]. *)
Lemma resolved_in_catalog (key : str) :
  In (get TYPE_MAPPING key (lit "feature.md")) (map fst DEFAULT_TEMPLATES).
Proof.
  destruct (get_default_or_value TYPE_MAPPING key (lit "feature.md"))
    as [[-> _]|[k [Hin _]]].
  - vm_compute. tauto.
  - apply mapped_in_catalog. apply (in_map snd) in Hin. exact Hin.
Qed.

Lemma catalog_filenames (read_text : str -> str) :
  map filename (get_pr_templates read_text) = map fst DEFAULT_TEMPLATES.
Proof. reflexivity. Qed.

Lemma find_by_filename (templates : list template) (file : str) :
  In file (map filename templates) ->
  exists t, find (fun t => Py.eqb (filename t) file) templates = Some t
            /\ In t templates /\ filename t = file.
Proof.
  intros Hin. apply in_map_iff in Hin. destruct Hin as [t0 [Hf Hin]].
  destruct (find (fun t => Py.eqb (filename t) file) templates) as [t|] eqn:E.
  - exists t. apply find_some in E. destruct E as [Ht Hn].
    apply eqb_eq in Hn. auto.
  - exfalso. apply (find_none _ _ E) in Hin.
    rewrite Hf, eqb_refl in Hin. discriminate.
Qed.

Lemma find_no_filename (templates : list template) (file : str) :
  (forall t, In t templates -> filename t <> file) ->
  find (fun t => Py.eqb (filename t) file) templates = None.
Proof.
  intros Hno. induction templates as [|t ts IH]; simpl; [reflexivity|].
  destruct (Py.eqb (filename t) file) eqn:E.
  - apply eqb_eq in E. exfalso. apply (Hno t); [now left | exact E].
  - apply IH. intros t' Hin. apply Hno. now right.
Qed.

#[local] Hint Resolve resolved_in_catalog find_by_filename find_no_filename : catalog.

(** C7. Whatever [change_type] is, [suggest_template] returns a suggestion
    and no error. Its template is the entry of the catalog that carries the
    filename the keyword table gives for the lowered [change_type]; a key
    the table lacks resolves to "feature.md". Over any non-empty catalog
    that holds no entry of the resolved filename, the first entry is
    chosen. *)
Theorem selection_total (lower : str -> str) (read_text : str -> str)
    (changes_summary change_type : str) :
  (exists sg,
     suggest_template lower read_text changes_summary change_type = inr sg
     /\ In (recommended_template sg) (get_pr_templates read_text)
     /\ filename (recommended_template sg) = template_file_for lower change_type
     /\ find (fun t => Py.eqb (filename t) (template_file_for lower change_type))
             (get_pr_templates read_text)
        = Some (recommended_template sg)
     /\ template_content sg = read_text (template_file_for lower change_type))
  /\ ((forall k v, In (k, v) TYPE_MAPPING -> k <> lower change_type) ->
      template_file_for lower change_type = lit "feature.md")
  /\ (forall k v, In (k, v) TYPE_MAPPING -> k = lower change_type ->
      template_file_for lower change_type = v)
  /\ (forall t0 rest,
      (forall t, In t (t0 :: rest) ->
                 filename t <> template_file_for lower change_type) ->
      exists sg,
        suggest_from lower (t0 :: rest) changes_summary change_type = inr sg
        /\ recommended_template sg = t0).
Proof.
  split; [|split; [|split]].
  - destruct (find_by_filename (get_pr_templates read_text)
                (template_file_for lower change_type))
      as [t [Hfind [Hin Hname]]].
    { rewrite catalog_filenames. unfold template_file_for. auto with catalog. }
    unfold suggest_template, suggest_from, first_match.
    change (get_pr_templates read_text)
      with ({| filename := lit "bug.md"; template_type := lit "Bug Fix";
               content := read_text (lit "bug.md") |}
            :: tl (get_pr_templates read_text)) at 1.
    cbv beta iota.
    change ({| filename := lit "bug.md"; template_type := lit "Bug Fix";
               content := read_text (lit "bug.md") |}
            :: tl (get_pr_templates read_text))
      with (get_pr_templates read_text).
    rewrite Hfind. eexists. split; [reflexivity|].
    cbn [recommended_template template_content].
    repeat split; auto.
    rewrite <- Hname.
    unfold get_pr_templates in Hin. apply in_map_iff in Hin.
    destruct Hin as [[f ty] [<- _]]. reflexivity.
  - intros Hno. unfold template_file_for.
    destruct (get_default_or_value TYPE_MAPPING (lower change_type) (lit "feature.md"))
      as [[Hd _]|[k [Hin Hk]]]; [exact Hd|].
    exfalso. eapply Hno; eauto.
  - intros k v Hin ->. unfold template_file_for.
    revert Hin. generalize (lower change_type). intros key Hin.
    vm_compute in Hin.
    repeat (destruct Hin as [[= <- <-]|Hin]; [vm_compute; reflexivity|]).
    contradiction.
  - intros t0 rest Hno. unfold suggest_from, first_match.
    rewrite (find_no_filename _ _ Hno). eexists. split; reflexivity.
Qed.

(** The scenarios of the specification: "optimization" selects the
    performance template, an unknown keyword the feature template. *)
Example optimization_selects_performance (read_text : str -> str) :
  exists sg,
    suggest_template ascii_lower read_text (lit "faster loop") (lit "Optimization")
    = inr sg
    /\ filename (recommended_template sg) = lit "performance.md"
    /\ template_type (recommended_template sg) = lit "Performance".
Proof. eexists. split; [reflexivity|]. split; reflexivity. Qed.

Example unknown_selects_feature (read_text : str -> str) :
  exists sg,
    suggest_template ascii_lower read_text (lit "misc") (lit "chore") = inr sg
    /\ filename (recommended_template sg) = lit "feature.md".
Proof. eexists. split; reflexivity. Qed.

(** Over a catalog without the resolved file the first entry is taken, and
    an empty catalog raises. *)
Example fallback_to_first_entry :
  let docs := {| filename := lit "docs.md"; template_type := lit "Documentation";
                 content := lit "## Docs" |} in
  let test := {| filename := lit "test.md"; template_type := lit "Test";
                 content := lit "## Tests" |} in
  first_match [docs; test] (lit "feature.md") = inr docs
  /\ first_match [docs; test] (lit "test.md") = inr test
  /\ first_match [] (lit "feature.md") = inl IndexError.
Proof. repeat split; reflexivity. Qed.

(** C10. [changes_summary] reaches the reasoning text and nothing else:
    over any catalog, the result for another summary is the result for the
    first one with only [reasoning] rewritten; and over the fixed catalog
    two calls with the same [change_type] return the same template, the
    same content and the same hint. *)
Theorem summary_only_in_reasoning (lower : str -> str) (read_text : str -> str)
    (summary1 summary2 change_type : str) :
  (forall templates,
     suggest_from lower templates summary2 change_type
     = match suggest_from lower templates summary1 change_type with
       | inl e => inl e
       | inr sg =>
           inr {| recommended_template := recommended_template sg;
                  reasoning :=
                    lit "Based on your analysis: '" ++ summary2
                    ++ lit "', this appears to be a " ++ change_type
                    ++ lit " change.";
                  template_content := template_content sg;
                  usage_hint := usage_hint sg |}
       end)
  /\ exists sg1 sg2,
       suggest_template lower read_text summary1 change_type = inr sg1
       /\ suggest_template lower read_text summary2 change_type = inr sg2
       /\ recommended_template sg1 = recommended_template sg2
       /\ template_content sg1 = template_content sg2
       /\ usage_hint sg1 = usage_hint sg2
       /\ reasoning sg1
          = lit "Based on your analysis: '" ++ summary1
            ++ lit "', this appears to be a " ++ change_type ++ lit " change."
       /\ reasoning sg2
          = lit "Based on your analysis: '" ++ summary2
            ++ lit "', this appears to be a " ++ change_type ++ lit " change.".
Proof.
  split.
  - intros templates. unfold suggest_from.
    destruct (first_match templates (template_file_for lower change_type));
      reflexivity.
  - unfold suggest_template, suggest_from.
    destruct (first_match (get_pr_templates read_text)
                (template_file_for lower change_type)) as [e|t] eqn:E.
    + exfalso. unfold first_match in E.
      change (get_pr_templates read_text)
        with ({| filename := lit "bug.md"; template_type := lit "Bug Fix";
                 content := read_text (lit "bug.md") |}
              :: tl (get_pr_templates read_text)) in E at 1.
      cbv beta iota in E. discriminate E.
    + do 2 eexists. repeat split; reflexivity.
Qed.

End TemplatesSpec.

(* ================================================================== *)
(** * Further facts about the built-ins: [strip] and [split] *)
(* ================================================================== *)

Module StripFacts.
Import Py PyFacts.

Lemma lstrip_idem (s : str) : lstrip (lstrip s) = lstrip s.
Proof.
  induction s as [|c s IH]; simpl; [reflexivity|].
  destruct (is_space c) eqn:E; [exact IH|].
  simpl. now rewrite E.
Qed.

Lemma lstrip_blank (s : str) : forallb is_space s = true -> lstrip s = [].
Proof.
  induction s as [|c s IH]; simpl; [reflexivity|].
  destruct (is_space c); simpl; [exact IH | discriminate].
Qed.

(** [lstrip] only removes characters. *)
Lemma lstrip_in (s : str) (c : char) : In c (lstrip s) -> In c s.
Proof.
  induction s as [|x s IH]; simpl; [tauto|].
  destruct (is_space x); simpl; tauto.
Qed.

Lemma lstrip_ends_nonspace (l : str) (c : char) :
  is_space c = false -> exists l', lstrip (l ++ [c]) = l' ++ [c].
Proof.
  intros Hc. induction l as [|x l IH]; simpl.
  - rewrite Hc. now exists [].
  - destruct (is_space x); [exact IH|]. now exists (x :: l).
Qed.

Lemma rstrip_idem (s : str) : rstrip (rstrip s) = rstrip s.
Proof. unfold rstrip. now rewrite rev_involutive, lstrip_idem. Qed.

Lemma rstrip_in (s : str) (c : char) : In c (rstrip s) -> In c s.
Proof.
  unfold rstrip. intros H. apply in_rev in H. apply lstrip_in in H.
  now apply in_rev.
Qed.

(** Stripping the right end keeps a non-blank first character in place. *)
Lemma lstrip_rstrip_head (c : char) (s : str) :
  is_space c = false -> lstrip (rstrip (c :: s)) = rstrip (c :: s).
Proof.
  intros Hc. unfold rstrip. simpl rev.
  destruct (lstrip_ends_nonspace (rev s) c Hc) as [l' ->].
  rewrite rev_app_distr. simpl. now rewrite Hc.
Qed.

Lemma lstrip_strip (s : str) : lstrip (strip s) = strip s.
Proof.
  unfold strip.
  assert (H : lstrip s = [] \/ exists c r, lstrip s = c :: r /\ is_space c = false).
  { induction s as [|x s IH]; simpl; [now left|].
    destruct (is_space x) eqn:E; [exact IH|]. right. now exists x, s. }
  destruct H as [->|[c [r [-> Hc]]]]; [reflexivity|].
  now apply lstrip_rstrip_head.
Qed.

(** [strip] is idempotent: a stripped text has no blank at either end. *)
Lemma strip_idem (s : str) : strip (strip s) = strip s.
Proof.
  unfold strip at 1. rewrite lstrip_strip.
  unfold strip. apply rstrip_idem.
Qed.

Lemma strip_in (s : str) (c : char) : In c (strip s) -> In c s.
Proof. unfold strip. intros H. now apply lstrip_in, rstrip_in. Qed.

Lemma strip_blank (s : str) : forallb is_space s = true -> strip s = [].
Proof. intros H. unfold strip. now rewrite lstrip_blank. Qed.

(** The pieces [split] returns hold no separator. *)
Lemma split_no_sep (sep : char) (s : str) :
  Forall (fun piece => ~ In sep piece) (split sep s).
Proof.
  induction s as [|c s IH]; simpl.
  - constructor; [tauto | constructor].
  - destruct (N.eqb_spec c sep) as [->|Hne].
    + constructor; [tauto | exact IH].
    + destruct (split sep s) as [|l ls]; [repeat constructor; simpl; intuition|].
      inversion IH; subst. constructor; [|assumption].
      simpl. intuition.
Qed.

(** Every line break is a blank for [strip]. *)
Lemma linebreak_is_space (c : char) : is_linebreak c = true -> is_space c = true.
Proof.
  unfold is_linebreak. rewrite !orb_true_iff, !N.eqb_eq.
  intros H. repeat (destruct H as [H|H]); subst; reflexivity.
Qed.

End StripFacts.

(* ================================================================== *)
(** * The change collector: errors, listings and odd caps *)
(* ================================================================== *)

Module GitMore.
Import Py PyFacts StripFacts Git GitSpec.


(** X2. When the name-status command exits with a non-zero status, the
    result is the error dict that carries its standard error after
    "Git error: ", whether or not the diff is asked for and whatever the
    cap and the other commands are. *)
Theorem git_error_carries_stderr (sys : system) (wd base : str)
    (include_diff : bool) (L rc : Z) (out err : str) :
  rc <> 0%Z ->
  sys wd (lit "git" :: name_status_args base) = Exited rc out err ->
  _get_git_changes sys wd base include_diff L = Error (lit "Git error: " ++ err).
Proof.
  intros Hrc H. unfold _get_git_changes. cbv zeta. rewrite H. simpl.
  now rewrite (proj2 (Z.eqb_neq rc 0) Hrc).
Qed.

Lemma git_error_carries_stderr_witness :
  _get_git_changes Tools.not_a_repo (lit "/tmp") (lit "main") true 500
  = Error (lit "Git error: fatal: not a git repository").
Proof.
  apply (git_error_carries_stderr Tools.not_a_repo (lit "/tmp") (lit "main") true 500
           128 [] (lit "fatal: not a git repository")).
  - discriminate.
  - reflexivity.
Defined.

(** What a returned change set lists comes from the name-status output. *)
Lemma changed_files_from_listing (sys : system) (wd base : str)
    (include_diff : bool) (L : Z) (c : ChangeSet) :
  _get_git_changes sys wd base include_diff L = Changes c ->
  exists out,
    succeeds (sys wd (lit "git" :: name_status_args base)) out
    /\ changed_files c = parse_changed_files out.
Proof.
  unfold _get_git_changes, succeeds. cbv zeta.
  destruct (sys wd (lit "git" :: name_status_args base)) as [rc1 o1 e1|m1];
    [destruct (Z.eqb_spec rc1 0) as [->|Hrc1]|]; simpl;
    try rewrite (proj2 (Z.eqb_neq rc1 0) Hrc1); simpl; try discriminate.
  destruct (subprocess_run _ false) as [e|cp2]; [destruct e; discriminate|].
  destruct include_diff.
  - destruct (subprocess_run _ true) as [e|cp3]; [destruct e; discriminate|].
    destruct (bounded_diff _ _) as [d t].
    destruct (subprocess_run _ false) as [e|cp4]; [destruct e; discriminate|].
    intros [= <-]. simpl. eauto.
  - intros [= <-]. simpl. eauto.
Qed.

Lemma parsed_files_trimmed (out : str) :
  Forall (fun f => f <> [] /\ strip f = f /\ ~ In LF f) (parse_changed_files out).
Proof.
  unfold parse_changed_files. apply Forall_forall. intros f Hin.
  apply in_map_iff in Hin. destruct Hin as [line [<- Hin]].
  apply filter_In in Hin. destruct Hin as [Hin Ht].
  split; [|split].
  - intros E. rewrite E in Ht. discriminate.
  - apply strip_idem.
  - intros HLF. apply strip_in in HLF.
    pose proof (split_no_sep LF (strip out)) as Hs.
    rewrite Forall_forall in Hs. exact (Hs line Hin HLF).
Qed.

(** X3. Every entry of [changed_files] in a returned change set is
    non-empty, has no blank at its start or end (stripping it again changes
    nothing) and holds no line feed. *)
Theorem changed_files_trimmed (sys : system) (wd base : str)
    (include_diff : bool) (L : Z) (c : ChangeSet) :
  _get_git_changes sys wd base include_diff L = Changes c ->
  Forall (fun f => f <> [] /\ strip f = f /\ ~ In LF f) (changed_files c).
Proof.
  intros H. apply changed_files_from_listing in H.
  destruct H as [out [_ ->]]. apply parsed_files_trimmed.
Qed.

Lemma changed_files_trimmed_witness :
  Forall (fun f => f <> [] /\ strip f = f /\ ~ In LF f)
         [lit "M" ++ [9%N] ++ lit "server.py"].
Proof.
  apply (changed_files_trimmed (sample_repo three_lines) (lit "/repo") (lit "main")
           false 0
           {| changed_files := [lit "M" ++ [9%N] ++ lit "server.py"];
              statistics := sample_stat;
              diff := placeholder;
              truncated := false;
              diff_line_count := 0;
              commits := None |}).
  reflexivity.
Defined.

(** X4. When the name-status command prints nothing but blanks (no file
    differs), a returned change set has an empty [changed_files]: no empty
    entry stands for the empty output. *)
Theorem blank_listing_no_files (sys : system) (wd base : str)
    (include_diff : bool) (L : Z) (c : ChangeSet) (out : str) :
  succeeds (sys wd (lit "git" :: name_status_args base)) out ->
  forallb is_space out = true ->
  _get_git_changes sys wd base include_diff L = Changes c ->
  changed_files c = [].
Proof.
  intros [err Hs] Hblank H. apply changed_files_from_listing in H.
  destruct H as [out' [[err' Hs'] ->]].
  assert (out' = out) by congruence. subst out'.
  unfold parse_changed_files. now rewrite strip_blank.
Qed.

Lemma blank_listing_no_files_witness :
  changed_files
    {| changed_files := [];
       statistics := [];
       diff := [];
       truncated := false;
       diff_line_count := 0;
       commits := Some [] |}
  = [].
Proof.
  apply (blank_listing_no_files Tools.clean_repo (lit "/repo") (lit "main") true 500
           _ []).
  - exists []. reflexivity.
  - reflexivity.
  - reflexivity.
Defined.

(** X5. A negative cap counts from the end: with [include_diff] true and
    [max_diff_lines = L < 0], when the four commands run, the result is
    always marked truncated, [diff_line_count] is still the number [N] of
    lines of the diff, and the text is the first [N + L] lines (none when
    [N + L <= 0]) joined by LF, followed by the trailer. *)
Theorem negative_cap (sys : system) (wd base : str) (L : Z)
    (files_out stat_out diff_out log_out : str) :
  (L < 0)%Z ->
  succeeds (sys wd (lit "git" :: name_status_args base)) files_out ->
  completes (sys wd (lit "git" :: stat_args base)) stat_out ->
  succeeds (sys wd (lit "git" :: diff_args base)) diff_out ->
  completes (sys wd (lit "git" :: log_args base)) log_out ->
  exists c,
    _get_git_changes sys wd base true L = Changes c
    /\ truncated c = true
    /\ diff_line_count c = len (splitlines diff_out)
    /\ diff c
       = join [LF] (firstn (Z.to_nat (len (splitlines diff_out) + L))
                           (splitlines diff_out))
         ++ trailer.
Proof.
  intros HL H1 H2 H3 H4.
  eexists. split; [apply (changes_with_diff sys wd base L _ _ _ _ H1 H2 H3 H4)|].
  cbn [diff_line_count truncated diff].
  unfold bounded_diff, len.
  destruct (Z.gtb_spec (Z.of_nat (length (splitlines diff_out))) L); [|lia].
  cbn [fst snd]. split; [reflexivity|]. split; [reflexivity|].
  unfold slice_to, clamp. destruct (Z.ltb_spec L 0); [|lia].
  do 3 f_equal. lia.
Qed.

Lemma negative_cap_witness :
  exists c,
    _get_git_changes (sample_repo three_lines) (lit "/repo") (lit "main") true (-1)
    = Changes c
    /\ truncated c = true
    /\ diff_line_count c = 3%Z
    /\ diff c = lit "a" ++ [LF] ++ lit "b" ++ trailer.
Proof.
  destruct (negative_cap (sample_repo three_lines) (lit "/repo") (lit "main") (-1)
              sample_files sample_stat three_lines sample_log)
    as [c [Hc [Ht [Hn Hd]]]].
  - lia.
  - exists []. reflexivity.
  - exists 0%Z, []. reflexivity.
  - exists []. reflexivity.
  - exists 0%Z, []. reflexivity.
  - exists c. repeat split; assumption.
Defined.

End GitMore.

(* ================================================================== *)
(** * The event feed: order, replays and malformed events *)
(* ================================================================== *)

Module ActionsMore.
Import Py PyFacts Actions ActionsSpec.

Section Feed.
Variable lower : str -> str.
Variable wn : option str.

Lemma candidate_wellformed (ev : event) k v :
  candidate lower wn ev = Some (k, v) ->
  Tools.complete ev = true
  /\ ident_truthy k = true
  /\ truthy (ws_name v) = true
  /\ truthy (ws_created_at v) = true
  /\ (forall w, wn = Some w -> truthy w = true ->
      Py.eqb (lower w) (lower (ws_name v)) = true).
Proof.
  unfold candidate, Tools.complete.
  destruct (event_type ev) as [ty|]; [|discriminate].
  destruct (Py.eqb ty _); [|discriminate].
  destruct (workflow_run ev) as [r|]; [|discriminate].
  destruct (workflow_id r) as [wid|]; [|discriminate].
  destruct (name r) as [n|]; [|discriminate].
  destruct (created_at r) as [ca|]; [|discriminate].
  destruct (ident_truthy wid) eqn:E1; [|discriminate].
  destruct (truthy n) eqn:E2; [|discriminate].
  destruct (truthy ca) eqn:E3; [|discriminate].
  cbn [andb].
  destruct wn as [w0|].
  - destruct (truthy w0) eqn:E4; cbn [andb].
    + destruct (Py.eqb (lower w0) (lower n)) eqn:E5; cbn [negb]; [|discriminate].
      intros [= <- <-]. cbn. repeat split; auto.
      intros w [= <-] _. exact E5.
    + intros [= <- <-]. cbn. repeat split; auto.
      intros w [= <-] Hw. congruence.
  - intros [= <- <-]. cbn. repeat split; auto. discriminate.
Qed.





(** A dict that already holds, for every offer of a list, an entry of the
    key that is not older, is left as it is by the loop over that list. *)
Lemma loop_no_news (l : list event) (d : dict) :
  (forall ev k v, In ev l -> candidate lower wn ev = Some (k, v) ->
     exists s, dict_get d k = Some s
               /\ leb (ws_created_at v) (ws_created_at s) = true) ->
  fold_left (step lower wn) l d = d.
Proof.
  induction l as [|ev l IH]; intros H; simpl; [reflexivity|].
  assert (E : step lower wn d ev = d).
  { rewrite step_candidate.
    destruct (candidate lower wn ev) as [[k v]|] eqn:Ec; [|reflexivity].
    destruct (H ev k v (or_introl eq_refl) Ec) as [s [Hs Hle]].
    unfold offer. rewrite Hs. now rewrite (leb_gtb_false _ _ Hle). }
  rewrite E. apply IH. intros ev' k v Hin. apply H. now right.
Qed.

Lemma collect_holds_latest (evs : list event) (ev : event) k v :
  In ev evs -> candidate lower wn ev = Some (k, v) ->
  exists s, dict_get (collect lower wn evs) k = Some s
            /\ leb (ws_created_at v) (ws_created_at s) = true.
Proof.
  intros Hin Hc. rewrite collect_get.
  destruct (latest lower wn k None evs) as [s|] eqn:E.
  - exists s. split; [reflexivity|].
    apply latest_some in E. destruct E as [_ [_ Hall]]. eauto.
  - exfalso. revert E. eapply latest_offered; eauto.
Qed.

Lemma status_from_candidate (evs : list event) (v : WorkflowStatus) :
  In v (statuses lower wn evs) ->
  exists ev k, In ev evs /\ candidate lower wn ev = Some (k, v).
Proof.
  intros Hin. unfold statuses in Hin.
  apply (Permutation_in _ (Permutation_sym (sort_desc_perm _))) in Hin.
  unfold values in Hin. apply in_map_iff in Hin.
  destruct Hin as [[k v'] [Hv Hin]]. simpl in Hv. subst v'.
  apply in_get in Hin; [|apply loop_nodup; constructor].
  rewrite collect_get in Hin. apply latest_some in Hin.
  destruct Hin as [[?|[ev [Hev Hc]]] _]; [discriminate|].
  now exists ev, k.
Qed.

End Feed.

#[local] Instance not_older_trans : RelationClasses.Transitive not_older.
Proof. intros a b c Hab Hbc. unfold not_older in *. eapply leb_trans; eauto. Qed.

(** X6. The list [get_workflow_status] serializes runs from the greatest
    [created_at] down: each entry is not older than the next, and no entry
    is newer than the first. *)
Theorem statuses_newest_first (lower : str -> str) (wn : option str)
    (evs : list event) :
  Sorted not_older (statuses lower wn evs)
  /\ (forall v0 rest, statuses lower wn evs = v0 :: rest ->
      forall v, In v rest ->
        leb (ws_created_at v) (ws_created_at v0) = true).
Proof.
  assert (Hs : Sorted not_older (statuses lower wn evs))
    by apply sort_desc_sorted.
  split; [exact Hs|].
  intros v0 rest E v Hin. rewrite E in Hs.
  apply Sorted_StronglySorted in Hs; [|apply not_older_trans].
  inversion Hs as [|? ? _ Hall]; subst.
  rewrite Forall_forall in Hall. exact (Hall v Hin).
Qed.

(** X7. Delivering again events the feed already holds changes nothing:
    for every list [again] of events of [evs], the loop over
    [evs ++ again] ends in the dict of the loop over [evs]. *)
Theorem redelivery_changes_nothing (lower : str -> str) (wn : option str)
    (evs again : list event) :
  incl again evs ->
  collect lower wn (evs ++ again) = collect lower wn evs
  /\ statuses lower wn (evs ++ again) = statuses lower wn evs.
Proof.
  intros Hincl.
  assert (E : collect lower wn (evs ++ again) = collect lower wn evs).
  { unfold collect. rewrite fold_left_app.
    apply loop_no_news. intros ev k v Hin Hc.
    apply (collect_holds_latest lower wn evs ev k v); auto. }
  split; [exact E|]. unfold statuses. now rewrite E.
Qed.

Lemma redelivery_changes_nothing_witness :
  collect ascii_lower None
    ([ci_failed; deploy_run; ci_passed] ++ [ci_passed; ci_failed; ci_failed])
  = collect ascii_lower None [ci_failed; deploy_run; ci_passed].
Proof.
  apply (redelivery_changes_nothing ascii_lower None
           [ci_failed; deploy_run; ci_passed] [ci_passed; ci_failed; ci_failed]).
  intros ev Hin. simpl in *. intuition.
Defined.

(** X8. Every entry of the serialized list has a non-empty name and a
    non-empty [created_at], and under a non-empty filter its name equals
    the filter up to case. *)
Theorem entries_wellformed (lower : str -> str) (wn : option str)
    (evs : list event) (v : WorkflowStatus) :
  In v (statuses lower wn evs) ->
  truthy (ws_name v) = true
  /\ truthy (ws_created_at v) = true
  /\ (forall w, wn = Some w -> truthy w = true ->
      Py.eqb (lower w) (lower (ws_name v)) = true).
Proof.
  intros Hin. apply status_from_candidate in Hin.
  destruct Hin as [ev [k [_ Hc]]].
  apply candidate_wellformed in Hc. tauto.
Qed.

Lemma entries_wellformed_witness :
  truthy (lit "Deploy") = true
  /\ truthy (lit "2024-01-03T00:00:00Z") = true
  /\ (forall w, Some (lit "DEPLOY") = Some w -> truthy w = true ->
      Py.eqb (ascii_lower w) (ascii_lower (lit "Deploy")) = true).
Proof.
  apply (entries_wellformed ascii_lower (Some (lit "DEPLOY"))
           [ci_passed; deploy_run; push_event]
           (run_status "Deploy" "in_progress" "" "2024-01-03T00:00:00Z")).
  vm_compute. now left.
Defined.


(** X10. An empty string as [workflow_name] filters nothing: the tool
    answers as it does without a filter, on every feed. *)
Theorem empty_filter_is_no_filter (lower : str -> str) (events : feed) :
  get_workflow_status lower events (Some []) = get_workflow_status lower events None.
Proof.
  destruct events as [msg|evs]; [reflexivity|].
  destruct evs as [|e evs]; [reflexivity|].
  unfold get_workflow_status, statuses, collect. do 3 f_equal.
Qed.

(** X11. Whatever the limit, the raw view of a non-empty feed returns a
    suffix of the feed: events are neither reordered nor changed nor
    invented; and for a positive limit the suffix has [min limit (len
    events)] events. *)
Theorem recent_is_suffix (evs : list event) (limit : Z) :
  evs <> [] ->
  exists dropped kept,
    evs = dropped ++ kept
    /\ get_recent_actions_events (Feed evs) limit = REvents kept
    /\ ((0 < limit)%Z -> len kept = Z.min limit (len evs)).
Proof.
  intros Hne. destruct evs as [|e evs]; [congruence|].
  unfold get_recent_actions_events, slice_from.
  set (l := e :: evs). set (n := clamp (length l) (- limit)).
  exists (firstn n l), (skipn n l).
  split; [symmetry; apply firstn_skipn|]. split; [reflexivity|].
  intros Hpos. unfold len. rewrite length_skipn.
  subst n. unfold clamp. destruct (Z.ltb_spec (- limit) 0); lia.
Qed.

Lemma recent_is_suffix_witness :
  exists dropped kept,
    [ci_failed; ci_passed; deploy_run] = dropped ++ kept
    /\ get_recent_actions_events (Feed [ci_failed; ci_passed; deploy_run]) 2
       = REvents kept
    /\ ((0 < 2)%Z -> len kept = Z.min 2 (len [ci_failed; ci_passed; deploy_run])).
Proof.
  apply (recent_is_suffix [ci_failed; ci_passed; deploy_run] 2).
  discriminate.
Defined.

End ActionsMore.

(* ================================================================== *)
(** * The remaining tools *)
(* ================================================================== *)

Module ToolsSpec.
Import Py PyFacts StripFacts Git Tools.

(** ** Where git runs *)

(** A working directory given by the caller decides alone where git
    runs: [analyze_file_changes] returns what the collector returns in that
    directory (in the process directory when the string is empty), and
    [get_local_file_changes] does not depend on the roots at all. *)
Lemma explicit_directory_wins (sys : system) (roots1 roots2 roots' : roots_outcome)
    (getcwd loc base : str) (include_diff : bool) (L : Z) (w : str) :
  changes (analyze_file_changes sys roots1 roots2 getcwd loc base include_diff L
             (Some w))
  = _get_git_changes sys (if truthy w then w else getcwd) base include_diff L
  /\ actual_cwd (_debug (analyze_file_changes sys roots1 roots2 getcwd loc base
                           include_diff L (Some w)))
     = (if truthy w then w else getcwd)
  /\ get_local_file_changes sys roots1 getcwd (Some w)
     = get_local_file_changes sys roots' getcwd (Some w).
Proof. repeat split. Qed.

(** X12. The two tools differ when no directory is given and the roots
    cannot be read (the listing raises, or lists no root):
    [analyze_file_changes] falls back to the process directory and answers
    as the collector does there, while [get_local_file_changes] returns an
    error that carries the text of the exception and runs no command. *)
Theorem root_lookup_failure (sys : system) (roots1 roots2 : roots_outcome)
    (getcwd loc base : str) (include_diff : bool) (L : Z) (e : str) :
  first_root_path roots1 = inl e ->
  changes (analyze_file_changes sys roots1 roots2 getcwd loc base include_diff L None)
  = _get_git_changes sys getcwd base include_diff L
  /\ get_local_file_changes sys roots1 getcwd None
     = LocalError (lit "Failed to get local file changes: " ++ e).
Proof.
  intros H. unfold analyze_file_changes, resolve_quietly,
    get_local_file_changes, local_cwd.
  rewrite H. split; reflexivity.
Qed.

Lemma root_lookup_failure_witness :
  changes (analyze_file_changes (sample_repo three_lines) (inr []) (inr [])
             (lit "/srv") (lit "/srv/app") (lit "main") false 500 None)
  = _get_git_changes (sample_repo three_lines) (lit "/srv") (lit "main") false 500
  /\ get_local_file_changes (sample_repo three_lines) (inr []) (lit "/srv") None
     = LocalError (lit "Failed to get local file changes: list index out of range").
Proof.
  apply (root_lookup_failure (sample_repo three_lines) (inr []) (inr [])
           (lit "/srv") (lit "/srv/app") (lit "main") false 500
           (lit "list index out of range")).
  reflexivity.
Defined.

(** ** [get_local_file_changes] *)

(** The status list of a returned summary is the stripped status output,
    split into lines. *)
Lemma local_status_shape (sys : system) (roots : roots_outcome)
    (getcwd : str) (wd : option str) (c : LocalChanges) :
  get_local_file_changes sys roots getcwd wd = Local c ->
  exists status_out, status c = splitlines (strip status_out).
Proof.
  unfold get_local_file_changes.
  destruct (local_cwd roots getcwd wd) as [e|cwd]; [destruct e; discriminate|].
  destruct (subprocess_run _ true) as [e|cp1]; [destruct e; discriminate|].
  destruct (subprocess_run _ false) as [e|cp2]; [destruct e; discriminate|].
  destruct (subprocess_run _ false) as [e|cp3]; [destruct e; discriminate|].
  intros [= <-]. cbn [status]. eauto.
Qed.


Lemma strip_head_nonspace (s : str) (ch : char) (r : str) :
  strip s = ch :: r -> is_space ch = false.
Proof.
  intros E. pose proof (lstrip_strip s) as H. rewrite E in H. simpl in H.
  destruct (is_space ch) eqn:Hc; [|reflexivity].
  exfalso.
  assert (Hlen : forall t, (length (lstrip t) <= length t)%nat).
  { induction t as [|x t IH]; simpl; [lia|]. destruct (is_space x); simpl; lia. }
  specialize (Hlen r). rewrite H in Hlen. simpl in Hlen. lia.
Qed.

Lemma splitlines_head (ch : char) (r : str) :
  is_linebreak ch = false ->
  exists l ls, splitlines (ch :: r) = (ch :: l) :: ls.
Proof.
  intros H. rewrite splitlines_cons_line by exact H.
  destruct (splitlines r) as [|l ls]; eauto.
Qed.

(** X14. In a summary of [get_local_file_changes] no status line holds a
    line break, and the first line never starts with a blank: the output
    is stripped as a whole before it is split, so a blank first column of
    the first porcelain line is lost. *)
Theorem local_status_lines (sys : system) (roots : roots_outcome)
    (getcwd : str) (wd : option str) (c : LocalChanges) :
  get_local_file_changes sys roots getcwd wd = Local c ->
  Forall no_break (status c)
  /\ (forall first rest, status c = first :: rest ->
      exists ch r, first = ch :: r /\ is_space ch = false).
Proof.
  intros H. apply local_status_shape in H.
  destruct H as [so ->].
  split; [apply splitlines_no_break|].
  intros first rest E.
  destruct (strip so) as [|ch r] eqn:Es; [discriminate|].
  pose proof (strip_head_nonspace so ch r Es) as Hsp.
  assert (Hlb : is_linebreak ch = false).
  { destruct (is_linebreak ch) eqn:Hb; [|reflexivity].
    apply linebreak_is_space in Hb. congruence. }
  destruct (splitlines_head ch r Hlb) as [l [ls El]].
  rewrite El in E. injection E as <- _. eauto.
Qed.

Lemma local_status_lines_witness :
  Forall no_break [lit "M server.py"; lit "?? notes.txt"]
  /\ (forall first rest,
        [lit "M server.py"; lit "?? notes.txt"] = first :: rest ->
        exists ch r, first = ch :: r /\ is_space ch = false).
Proof.
  apply (local_status_lines sample_worktree (inl (lit "no context")) (lit "/srv")
           (Some (lit "/repo"))
           {| status := [lit "M server.py"; lit "?? notes.txt"];
              unstaged_diff := [];
              staged_diff := [];
              working_directory_used := lit "/repo" |}).
  reflexivity.
Defined.

(** ** [send_slack_notification] *)

(** X15. [send_slack_notification] reports success (its answer starts
    with "Slack notification sent successfully: ") exactly when the webhook
    URL is set and not empty and the POST is answered with status 200; the
    answer then quotes the first 50 characters of the message and no more.
    Every other answer starts with "Error". *)
Theorem slack_success_iff (webhook_url : option str)
    (post : str -> str -> str + response) (message : str) :
  (startswith success_prefix (send_slack_notification webhook_url post message)
   = true
   <-> exists url body,
         webhook_url = Some url /\ truthy url = true
         /\ post url message = inr (200%Z, body))
  /\ (startswith success_prefix (send_slack_notification webhook_url post message)
      = true ->
      send_slack_notification webhook_url post message
      = success_prefix ++ firstn 50 message ++ lit "...")
  /\ (startswith success_prefix (send_slack_notification webhook_url post message)
      = false ->
      startswith (lit "Error") (send_slack_notification webhook_url post message)
      = true).
Proof.
  unfold send_slack_notification.
  destruct webhook_url as [url|].
  2: { repeat split; try discriminate; try reflexivity.
       intros [url [body [H _]]]. discriminate. }
  destruct (truthy url) eqn:Hu; cbn [negb].
  2: { repeat split; try discriminate; try reflexivity.
       intros [url' [body [[= <-] [H _]]]]. congruence. }
  destruct (post url message) as [e|[st body]] eqn:Hp.
  { repeat split; try discriminate; try reflexivity.
    intros [url' [body [[= <-] [_ H]]]]. congruence. }
  destruct (Z.eqb_spec st 200) as [->|Hst].
  - rewrite slice_to_firstn by lia. change (Z.to_nat 50) with 50%nat.
    assert (Hs : startswith success_prefix
                   (success_prefix ++ firstn 50 message ++ lit "...") = true)
      by reflexivity.
    rewrite Hs. repeat split; try discriminate; eauto.
  - destruct body as [e|txt].
    + repeat split; try discriminate; try reflexivity.
      intros [url' [body [[= <-] [_ H]]]]. congruence.
    + repeat split; try discriminate; try reflexivity.
      intros [url' [body [[= <-] [_ H]]]]. congruence.
Qed.

End ToolsSpec.
